(** * GitPilot: the command executor, the response parser and the repository
    inspector, embedded from [src/gitExecutor.ts], [src/aiEngine.ts] and
    [src/contextAnalyzer.ts].

    Part I embeds the TypeScript code; Part II proves its properties. *)

From Stdlib Require Import List NArith ZArith Bool String Ascii Lia.
Import ListNotations.

Set Implicit Arguments.

(* ================================================================== *)
(** * Part I. The embedding *)
(* ================================================================== *)

(** ** JavaScript strings

    A JavaScript string is a sequence of UTF-16 code units.  The methods the
    sources call ([trim], [startsWith], [includes], [split]) are defined on
    code units, as ECMAScript does. *)

Module JS.

Definition jsstring := list N.

(** An ASCII literal of the source, as code units. *)
Definition lit (s : string) : jsstring :=
  map N_of_ascii (list_ascii_of_string s).

(** The characters [String.prototype.trim] removes: ECMAScript's WhiteSpace
    (TAB, VT, FF, SP, NBSP, ZWNBSP and the Unicode space separators) and
    LineTerminator (LF, CR, LS, PS). *)
Definition isWhiteSpace (u : N) : bool :=
  (((9 <=? u) && (u <=? 13)) || (u =? 32) || (u =? 160) || (u =? 5760)
   || ((8192 <=? u) && (u <=? 8202)) || (u =? 8232) || (u =? 8233)
   || (u =? 8239) || (u =? 8287) || (u =? 12288) || (u =? 65279))%N.

Fixpoint trimStart (s : jsstring) : jsstring :=
  match s with
  | [] => []
  | u :: s' => if isWhiteSpace u then trimStart s' else s
  end.

Definition trimEnd (s : jsstring) : jsstring := rev (trimStart (rev s)).

Definition trim (s : jsstring) : jsstring := trimEnd (trimStart s).

(** [s.startsWith(p)] *)
Fixpoint startsWith (s p : jsstring) {struct p} : bool :=
  match p with
  | [] => true
  | b :: p' =>
      match s with
      | [] => false
      | a :: s' => (a =? b)%N && startsWith s' p'
      end
  end.

(** [s.includes(p)]: [p] occurs in [s] at some position. *)
Fixpoint includes (s p : jsstring) : bool :=
  startsWith s p
  || match s with
     | [] => false
     | _ :: s' => includes s' p
     end.

(** [s.split(sep)] for a one-character separator; the empty string splits
    into one empty piece. *)
Fixpoint split (sep : N) (s : jsstring) : list jsstring :=
  match s with
  | [] => [[]]
  | u :: s' =>
      if (u =? sep)%N then [] :: split sep s'
      else match split sep s' with
           | [] => [[u]]
           | piece :: pieces => (u :: piece) :: pieces
           end
  end.

(** The text before the first occurrence of the character [c], when [c]
    occurs: what a negated character class [[^c]*] followed by [c] consumes. *)
Fixpoint upTo (c : N) (s : jsstring) : option jsstring :=
  match s with
  | [] => None
  | u :: s' => if (u =? c)%N then Some [] else option_map (cons u) (upTo c s')
  end.

(** [a === b] on strings. *)
Fixpoint eqb (a b : jsstring) : bool :=
  match a, b with
  | [], [] => true
  | u :: a', v :: b' => (u =? v)%N && eqb a' b'
  | _, _ => false
  end.

(** The longest prefix of decimal digits, [\d*]. *)
Fixpoint digitsPrefix (s : jsstring) : jsstring :=
  match s with
  | u :: s' => if ((48 <=? u) && (u <=? 57))%N then u :: digitsPrefix s' else []
  | [] => []
  end.

(** A value of type [string | null] (or [string | undefined]) is truthy when
    it is a non-empty string. *)
Definition truthy (o : option jsstring) : bool :=
  match o with
  | Some (_ :: _) => true
  | _ => false
  end.

(** [a || b] on such a value and a string default. *)
Definition orElse (o : option jsstring) (d : jsstring) : jsstring :=
  match o with
  | Some (u :: s) => u :: s
  | _ => d
  end.

(** [String.prototype.toLowerCase] is a builtin that follows the Unicode case
    tables; the embedding takes it as a parameter.  On text made of ASCII
    code units it is the function below, which the examples use. *)
Definition asciiToLowerCase (s : jsstring) : jsstring :=
  map (fun u => if ((65 <=? u) && (u <=? 90))%N then (u + 32)%N else u) s.

(** [parseInt(d, 10)] on a run of decimal digits, as an exact integer (a
    JavaScript number is exact up to 2^53). *)
Definition parseDigits (d : jsstring) : N :=
  fold_left (fun acc u => (10 * acc + (u - 48))%N) d 0%N.

End JS.

Import JS.
Arguments lit s%_string : simpl never.

(** ** Exceptions and external calls

    A computation returns a value, throws, or calls the outside world (a
    subprocess, an HTTP request) and goes on with the answer.  A computation
    that is [Ret] or [Throw] makes no external call at all. *)

Module Eff.

Record exn := Err { errName : jsstring; errMessage : jsstring }.

(** [new Error(m)] *)
Definition newError (m : jsstring) : exn := Err (lit "Error") m.

(** The text of an error in a template literal, [Error.prototype.toString]. *)
Definition showError (e : exn) : jsstring :=
  match errName e, errMessage e with
  | [], m => m
  | n, [] => n
  | n, m => n ++ lit ": " ++ m
  end.

Section Prog.

Variables Req Ans : Type.

Inductive Prog (A : Type) : Type :=
| Ret (a : A)
| Throw (e : exn)
| Call (q : Req) (k : Ans -> Prog A).

Arguments Ret {A} a.
Arguments Throw {A} e.
Arguments Call {A} q k.

Fixpoint bind {A B : Type} (p : Prog A) (f : A -> Prog B) : Prog B :=
  match p with
  | Ret a => f a
  | Throw e => Throw e
  | Call q k => Call q (fun ans => bind (k ans) f)
  end.

(** [try { p } catch (error) { h error }] *)
Fixpoint tryCatch {A : Type} (p : Prog A) (h : exn -> Prog A) : Prog A :=
  match p with
  | Ret a => Ret a
  | Throw e => h e
  | Call q k => Call q (fun ans => tryCatch (k ans) h)
  end.

(** Running a computation in a world that answers every call: the outcome
    and the calls made, in order. *)
Fixpoint run {A : Type} (world : Req -> Ans) (p : Prog A) : (exn + A) * list Req :=
  match p with
  | Ret a => (inr a, [])
  | Throw e => (inl e, [])
  | Call q k => let (r, calls) := run world (k (world q)) in (r, q :: calls)
  end.

End Prog.

Arguments Ret {Req Ans A} a.
Arguments Throw {Req Ans A} e.
Arguments Call {Req Ans A} q k.

End Eff.

Import Eff.

Notation "x <- p ;; k" := (bind p (fun x => k))
  (at level 61, p at next level, right associativity).

(** ** [gitExecutor.ts]: class [GitExecutor] *)

Module GitExecutor.

(** [error.code || 1]: an exit status, or the name of a spawn error. *)
Inductive Code :=
| CodeNum (n : Z)
| CodeStr (s : jsstring).

Record ExecutionResult := {
  success : bool;
  output : option jsstring;
  error : option jsstring;
  executed : bool;
  warnings : option (list jsstring);
  return_code : option Code
}.

(** The argument of [execAsync] and what the promise settles to. *)
Record SpawnRequest := {
  spawnCommand : jsstring;
  cwd : jsstring;
  timeout : Z
}.

Record ExecError := {
  errStdout : option jsstring;
  errStderr : option jsstring;
  errMsg : option jsstring;
  errCode : option Code
}.

Inductive SpawnOutcome :=
| Resolved (stdout stderr : jsstring)
| Rejected (e : ExecError).

Definition Exec := Prog SpawnRequest SpawnOutcome.

(** The warning glyph of the sources: U+26A0 followed by U+FE0F. *)
Definition warningGlyph : jsstring := [9888%N; 65039%N].

(** [destructiveCommands], in the order the object literal lists its keys. *)
Definition destructiveCommands : list (jsstring * jsstring) :=
  [ (lit "reset --hard", lit "This will discard all uncommitted changes");
    (lit "clean -f", lit "This will delete untracked files permanently");
    (lit "push --force", lit "This will overwrite remote history");
    (lit "rebase", lit "This will rewrite commit history");
    (lit "cherry-pick", lit "This may create conflicts");
    (lit "merge --no-ff", lit "This will create a merge commit") ].

Definition dangerousChars : list jsstring :=
  [ lit ";"; lit "&&"; lit "||"; lit "|"; [96%N]; lit "$"; lit ">"; lit "<" ].

(** The loop of [cleanCommand]: the first dangerous string the command
    includes, in the order of the array. *)
Fixpoint firstDangerous (chars : list jsstring) (command : jsstring) : option jsstring :=
  match chars with
  | [] => None
  | char :: rest =>
      if includes command char then Some char else firstDangerous rest command
  end.

Definition injectionError (char : jsstring) : exn :=
  newError (lit "Potentially dangerous character detected: " ++ char).

Definition cleanCommand (command : jsstring) : Exec jsstring :=
  let command := trim command in
  let command :=
    if negb (startsWith command (lit "git")) then lit "git " ++ command else command in
  match firstDangerous dangerousChars command with
  | Some char => Throw (injectionError char)
  | None => Ret command
  end.

Section Executor.

Variable repoPath : jsstring.
Variable toLowerCase : jsstring -> jsstring.

(** The loop of [checkDestructiveOperations] over [Object.entries], pushing
    onto [warnings]. *)
Fixpoint pushWarnings (entries : list (jsstring * jsstring)) (command : jsstring)
  (warnings : list jsstring) : list jsstring :=
  match entries with
  | [] => warnings
  | (destructiveCmd, warning) :: rest =>
      if includes (toLowerCase command) destructiveCmd
      then pushWarnings rest command (warnings ++ [warningGlyph ++ lit " " ++ warning])
      else pushWarnings rest command warnings
  end.

Definition checkDestructiveOperations (command : jsstring) : list jsstring :=
  pushWarnings destructiveCommands command [].

Definition isDestructiveCommand (command : jsstring) : bool :=
  existsb (fun destructiveCmd => includes (toLowerCase command) destructiveCmd)
    (map fst destructiveCommands).

Definition invalidCommand : ExecutionResult :=
  {| success := false; output := Some []; error := Some (lit "Invalid Git command");
     executed := false; warnings := None; return_code := None |}.

Definition execute (command : jsstring) (dryRun autoConfirm : bool) : Exec ExecutionResult :=
  if negb (truthy (Some command)) || negb (startsWith (trim command) (lit "git"))
  then Ret invalidCommand
  else
    cleanCommand <- cleanCommand command ;;
    let warnings := checkDestructiveOperations cleanCommand in
    if dryRun then
      Ret {| success := true; output := Some (lit "Would execute: " ++ cleanCommand);
             error := Some []; executed := false; warnings := Some warnings;
             return_code := None |}
    else
      Call {| spawnCommand := cleanCommand; cwd := repoPath; timeout := 30000 |}
        (fun settled =>
           match settled with
           | Resolved stdout stderr =>
               Ret {| success := true; output := Some stdout;
                      error := Some (orElse (Some stderr) []); executed := true;
                      warnings := Some warnings; return_code := Some (CodeNum 0) |}
           | Rejected e =>
               Ret {| success := false; output := Some (orElse (errStdout e) []);
                      error := Some (orElse (errStderr e)
                                       (orElse (errMsg e) (lit "Command execution failed")));
                      executed := false; warnings := Some warnings;
                      return_code :=
                        Some match errCode e with
                             | Some (CodeNum 0) | Some (CodeStr []) | None => CodeNum 1
                             | Some c => c
                             end |}
           end).

(** The object the [dryRun] branch of [execute] returns for the normalised
    command [cleaned]. *)
Definition dryRunResult (cleaned : jsstring) : ExecutionResult :=
  {| success := true; output := Some (lit "Would execute: " ++ cleaned);
     error := Some []; executed := false;
     warnings := Some (checkDestructiveOperations cleaned); return_code := None |}.

Definition previewCommand (command : jsstring) : Exec ExecutionResult :=
  execute command true false.

End Executor.

End GitExecutor.

(** ** [aiEngine.ts]: class [AIEngine] *)

Module AIEngine.

Record AIResponse := {
  command : option jsstring;
  explanation : jsstring;
  warning : option jsstring
}.

Inductive Provider := gemini | groq.

Record ModelInfo := {
  name : jsstring;
  provider : Provider;
  model : jsstring
}.

Definition availableModels : list (jsstring * ModelInfo) :=
  [ (lit "1", {| name := lit "Gemini 2.0 Flash"; provider := gemini;
                 model := lit "gemini-2.0-flash" |});
    (lit "2", {| name := lit "Llama 3.1 8B Instant"; provider := groq;
                 model := lit "llama-3.1-8b-instant" |});
    (lit "3", {| name := lit "Llama 3.3 70B Versatile"; provider := groq;
                 model := lit "llama-3.3-70b-versatile" |});
    (lit "4", {| name := lit "DeepSeek R1 Distill Llama 70B"; provider := groq;
                 model := lit "deepseek-r1-distill-llama-70b" |}) ].

(** [availableModels] is an object literal: besides its own four keys a
    lookup finds the properties of [Object.prototype], all truthy and none
    with a [provider]. *)
Definition inheritedKeys : list jsstring :=
  [ lit "constructor"; lit "__proto__"; lit "hasOwnProperty"; lit "isPrototypeOf";
    lit "propertyIsEnumerable"; lit "toLocaleString"; lit "toString"; lit "valueOf";
    lit "__defineGetter__"; lit "__defineSetter__"; lit "__lookupGetter__";
    lit "__lookupSetter__" ].

Inductive Resolution :=
| Model (modelInfo : ModelInfo)
| NotAModel.

Definition defaultModel : ModelInfo :=
  {| name := lit "Gemini 2.0 Flash"; provider := gemini; model := lit "gemini-2.0-flash" |}.

(** [this.availableModels[modelChoice] || this.availableModels["1"]] *)
Definition resolveModel (modelChoice : jsstring) : Resolution :=
  match find (fun entry => eqb (fst entry) modelChoice) availableModels with
  | Some (_, modelInfo) => Model modelInfo
  | None =>
      if existsb (eqb modelChoice) inheritedKeys then NotAModel else Model defaultModel
  end.

Inductive HttpBody :=
| GenerateContent (text : jsstring)
| ChatCompletion (model system user : jsstring).

Record HttpRequest := {
  url : jsstring;
  headers : list (jsstring * jsstring);
  body : HttpBody
}.

Definition dq : jsstring := [34%N].

Definition groqSystemPrompt : jsstring :=
  lit "You are GitPilot, an AI assistant that converts natural language to Git commands. CRITICAL: Always respond with ONLY a valid JSON object in this exact format: {"
  ++ dq ++ lit "command" ++ dq ++ lit ": " ++ dq ++ lit "git ..." ++ dq ++ lit ", "
  ++ dq ++ lit "explanation" ++ dq ++ lit ": " ++ dq ++ lit "..." ++ dq ++ lit ", "
  ++ dq ++ lit "warning" ++ dq ++ lit ": " ++ dq ++ lit "..." ++ dq
  ++ lit " or null}. The command should be a valid Git command or null if no command can be generated. Do not include any text before or after the JSON object.".

(** The pattern [/\{[^}]*"command"[^}]*\}/s]: from an opening brace, the text
    up to the first closing brace, when it holds the quoted key. *)
Definition jsonObjectAt (rest : jsstring) : option jsstring :=
  match upTo 125 rest with
  | Some inner =>
      if includes inner (dq ++ lit "command" ++ dq)
      then Some (123%N :: inner ++ [125%N])
      else None
  | None => None
  end.

(** [response.match(...)]: the leftmost match, [jsonMatch[0]]. *)
Fixpoint matchJsonObject (s : jsstring) : option jsstring :=
  match s with
  | [] => None
  | u :: s' =>
      if (u =? 123)%N then
        match jsonObjectAt s' with
        | Some m => Some m
        | None => matchJsonObject s'
        end
      else matchJsonObject s'
  end.

(** The pattern [/`(git [^`]+)`/]: after a backtick, [git ] and a non-empty
    run of other characters closed by a backtick; the group is returned. *)
Definition gitFragmentAt (rest : jsstring) : option jsstring :=
  if startsWith rest (lit "git ") then
    match upTo 96 (skipn 4 rest) with
    | Some (u :: run) => Some (lit "git " ++ u :: run)
    | _ => None
    end
  else None.

Fixpoint matchGitFragment (s : jsstring) : option jsstring :=
  match s with
  | [] => None
  | u :: s' =>
      if (u =? 96)%N then
        match gitFragmentAt s' with
        | Some fragment => Some fragment
        | None => matchGitFragment s'
        end
      else matchGitFragment s'
  end.

(** [s.replace(/^`|`$/g, '')] *)
Definition stripBackticks (s : jsstring) : jsstring :=
  let s := match s with
           | u :: s' => if (u =? 96)%N then s' else s
           | [] => s
           end in
  match rev s with
  | u :: r => if (u =? 96)%N then rev r else s
  | [] => s
  end.

(** The first test of the warning chain of the line loop. *)
Definition isWarningLine (trimmedLine : jsstring) : bool :=
  startsWith trimmedLine (lit "Warning:")
  || startsWith trimmedLine (lit "Note:")
  || includes trimmedLine GitExecutor.warningGlyph.

(** The lines the loop appends to the explanation while it has found no
    command: the last two tests of the loop body. *)
Definition isProse (trimmedLine : jsstring) : bool :=
  truthy (Some trimmedLine)
  && negb (startsWith trimmedLine (lit "```"))
  && negb (startsWith trimmedLine (lit "`"))
  && negb (includes trimmedLine (lit "git ")).

Definition parseFailure (response : jsstring) : AIResponse :=
  {| command := None; explanation := response;
     warning := Some (lit "Failed to parse AI response") |}.

Section Engine.

Variable geminiApiKey groqApiKey : option jsstring.

(** Builtins and the text of the prompt, which no property below reads:
    [toLowerCase]; [JSON.parse], which throws on text that is not JSON;
    [buildPrompt], a template over the fields of the context; and the first
    text payload of a provider's reply, an optional chain that throws when
    the reply has no [data]. *)
Variable toLowerCase : jsstring -> jsstring.
Variable JSON : Type.
Variable JSON_parse : jsstring -> exn + JSON.
Variable ContextInfo : Type.
Variable buildPrompt : jsstring -> ContextInfo -> jsstring.
Variable HttpResponse : Type.
Variable geminiText groqText : HttpResponse -> exn + option jsstring.

(** What [parseAIResponse] returns: the value [JSON.parse] gave, as it is, or
    the triple the text fallback built. *)
Inductive Parsed :=
| Json (v : JSON)
| Text (r : AIResponse).

(** The block [if (!command) { ... }] of the loop body: the command after
    the line, given the command before it. *)
Definition findCommand (command : option jsstring) (trimmedLine : jsstring)
  : option jsstring :=
  if negb (truthy command) then
    if startsWith trimmedLine (lit "git ") then Some trimmedLine
    else if includes trimmedLine (96%N :: lit "git ") then
      match matchGitFragment trimmedLine with
      | Some fragment => Some fragment
      | None => command
      end
    else command
  else command.

(** One iteration of [for (const line of lines)]; the state is the three
    variables [command], [explanation] and [warning]. *)
Definition scanLine (st : AIResponse) (line : jsstring) : AIResponse :=
  let trimmedLine := trim line in
  let cmd := findCommand (command st) trimmedLine in
  if isWarningLine trimmedLine then
    {| command := cmd; explanation := explanation st; warning := Some trimmedLine |}
  else if includes (toLowerCase trimmedLine) (lit "warning") && negb (truthy (warning st)) then
    {| command := cmd; explanation := explanation st; warning := Some trimmedLine |}
  else if truthy (Some trimmedLine) && negb (truthy cmd)
          && negb (startsWith trimmedLine (lit "```"))
          && negb (startsWith trimmedLine (lit "`")) then
    if negb (includes trimmedLine (lit "git ")) then
      {| command := cmd; explanation := explanation st ++ trimmedLine ++ lit " ";
         warning := warning st |}
    else {| command := cmd; explanation := explanation st; warning := warning st |}
  else {| command := cmd; explanation := explanation st; warning := warning st |}.

Definition scanLines (lines : list jsstring) : AIResponse :=
  fold_left scanLine lines {| command := None; explanation := []; warning := None |}.

(** The text parsing fallback: the loop, then the clean-up of the command. *)
Definition textFallback (response : jsstring) : AIResponse :=
  let st := scanLines (split 10 response) in
  let cmd :=
    match command st with
    | Some (u :: c) =>
        let c := stripBackticks (trim (u :: c)) in
        Some (if negb (startsWith c (lit "git ")) then lit "git " ++ c else c)
    | other => other
    end in
  {| command := cmd; explanation := trim (explanation st); warning := warning st |}.

(** [try { JSON.parse(text) } catch { }] *)
Definition tryParse (text : jsstring) : option JSON :=
  match JSON_parse text with
  | inr v => Some v
  | inl _ => None
  end.

(** The body of the outer [try] of [parseAIResponse]. *)
Definition parseBody (response : jsstring) : exn + Parsed :=
  match
    match matchJsonObject response with
    | Some jsonMatch => tryParse jsonMatch
    | None => None
    end
  with
  | Some v => inr (Json v)
  | None =>
      match
        if startsWith (trim response) (lit "{") then tryParse (trim response) else None
      with
      | Some v => inr (Json v)
      | None => inr (Text (textFallback response))
      end
  end.

Definition parseAIResponse (response : jsstring) : Parsed :=
  match parseBody response with
  | inr r => r
  | inl _ => Text (parseFailure response)
  end.

Definition Net := Prog HttpRequest (exn + HttpResponse).

(** [await axios.post(url, body, {headers})] *)
Definition post (q : HttpRequest) : Net HttpResponse :=
  Call q (fun settled =>
            match settled with
            | inr response => Ret response
            | inl e => Throw e
            end).

Definition generateWithGemini (userInput : jsstring) (context : ContextInfo)
  (model : jsstring) : Net Parsed :=
  if negb (truthy geminiApiKey) then Throw (newError (lit "Gemini API key not configured"))
  else
    let prompt := buildPrompt userInput context in
    tryCatch
      (response <- post
         {| url := lit "https://generativelanguage.googleapis.com/v1beta/models/"
                   ++ model ++ lit ":generateContent?key=" ++ orElse geminiApiKey [];
            headers := [(lit "Content-Type", lit "application/json")];
            body := GenerateContent prompt |} ;;
       match geminiText response with
       | inr text => Ret (parseAIResponse (orElse text []))
       | inl e => Throw e
       end)
      (fun error => Throw (newError (lit "Gemini API error: " ++ showError error))).

Definition generateWithGroq (userInput : jsstring) (context : ContextInfo)
  (model : jsstring) : Net Parsed :=
  if negb (truthy groqApiKey) then Throw (newError (lit "Groq API key not configured"))
  else
    let prompt := buildPrompt userInput context in
    tryCatch
      (response <- post
         {| url := lit "https://api.groq.com/openai/v1/chat/completions";
            headers := [(lit "Authorization", lit "Bearer " ++ orElse groqApiKey []);
                        (lit "Content-Type", lit "application/json")];
            body := ChatCompletion model groqSystemPrompt prompt |} ;;
       match groqText response with
       | inr text => Ret (parseAIResponse (orElse text []))
       | inl e => Throw e
       end)
      (fun error => Throw (newError (lit "Groq API error: " ++ showError error))).

(** The key an adapter tests before it builds its request. *)
Definition apiKeyOf (p : Provider) : option jsstring :=
  match p with
  | gemini => geminiApiKey
  | groq => groqApiKey
  end.

Definition generationFailure (error : exn) : AIResponse :=
  {| command := None;
     explanation := lit "Failed to generate command: " ++ showError error;
     warning := Some (lit "Please try again or use manual Git commands") |}.

Definition generateCommand (userInput : jsstring) (context : ContextInfo)
  (modelChoice : jsstring) : Net Parsed :=
  tryCatch
    match resolveModel modelChoice with
    | Model modelInfo =>
        match provider modelInfo with
        | gemini => generateWithGemini userInput context (model modelInfo)
        | groq => generateWithGroq userInput context (model modelInfo)
        end
    | NotAModel => Throw (newError (lit "Unknown provider: undefined"))
    end
    (fun error => Ret (Text (generationFailure error))).

End Engine.

Arguments Json {JSON} v.
Arguments Text {JSON} r.

End AIEngine.

(** ** [contextAnalyzer.ts]: class [ContextAnalyzer] *)

Module ContextAnalyzer.

(** [execSync(command, { cwd: this.repoPath }).toString()]: the call is the
    command line; the answer is the standard output, or the error thrown
    when the command exits with a non-zero status. *)
Definition Git := Prog jsstring (exn + jsstring).

Definition execSync (command : jsstring) : Git jsstring :=
  Call command (fun settled =>
                  match settled with
                  | inr stdout => Ret stdout
                  | inl e => Throw e
                  end).

Record RemoteStatus := {
  has_remote : bool;
  ahead : option N;
  behind : option N;
  up_to_date : option bool
}.

Record CommitInfo := {
  sha : jsstring;
  message : jsstring;
  author : jsstring;
  date : jsstring
}.

Record Snapshot := {
  branch : jsstring;
  is_dirty : bool;
  staged_files : Z;
  unstaged_files : Z;
  untracked_files : Z;
  is_detached : bool;
  remote_status : RemoteStatus;
  last_commit : option CommitInfo;
  stash_count : Z
}.

(** What [analyzeContext] resolves to: the nine fields, or [{ error }]. *)
Inductive Context :=
| Analyzed (s : Snapshot)
| ContextError (error : jsstring).

(** [out.trim().split('\n').length - 1] *)
Definition countLines (out : jsstring) : Z :=
  Z.of_nat (List.length (split 10 (trim out))) - 1.

(** [!!out.trim()] *)
Definition nonEmpty (out : jsstring) : bool := truthy (Some (trim out)).

(** The patterns [/<prefix>(\d+) commit/]: the digits of the leftmost match. *)
Definition countAt (s : jsstring) : option jsstring :=
  match digitsPrefix s with
  | [] => None
  | d => if startsWith (skipn (List.length d) s) (lit " commit") then Some d else None
  end.

Fixpoint matchCount (prefix s : jsstring) : option jsstring :=
  match
    if startsWith s prefix then countAt (skipn (List.length prefix) s) else None
  with
  | Some d => Some d
  | None =>
      match s with
      | [] => None
      | _ :: s' => matchCount prefix s'
      end
  end.

(** The count the specification asks for: the non-empty lines of the
    command output. *)
Definition nonEmptyLines (out : jsstring) : Z :=
  Z.of_nat (List.length (filter (fun piece => negb (eqb piece [])) (split 10 out))).

Definition isGitRepo : Git bool :=
  tryCatch (_ <- execSync (lit "git status") ;; Ret true) (fun _ => Ret false).

Definition getCurrentBranch : Git jsstring :=
  tryCatch
    (out <- execSync (lit "git rev-parse --abbrev-ref HEAD") ;;
     Ret (orElse (Some (trim out)) (lit "unknown")))
    (fun _ => Ret (lit "unknown")).

Definition getRemoteStatus : Git RemoteStatus :=
  tryCatch
    (origin <- execSync (lit "git remote show origin") ;;
     let aheadMatch := matchCount (lit "local out of date by ") origin in
     let behindMatch := matchCount (lit "branches out of date by ") origin in
     Ret {| has_remote := true;
            ahead := Some match aheadMatch with Some d => parseDigits d | None => 0%N end;
            behind := Some match behindMatch with Some d => parseDigits d | None => 0%N end;
            up_to_date :=
              Some match aheadMatch, behindMatch with
                   | None, None => true
                   | _, _ => false
                   end |})
    (fun _ => Ret {| has_remote := false; ahead := None; behind := None;
                     up_to_date := None |}).

Section Analyzer.

(** [new Date(text).toISOString()], a builtin: [None] when the date is
    invalid and [toISOString] throws. *)
Variable toISOString : jsstring -> option jsstring.

Definition getLastCommitInfo : Git (option CommitInfo) :=
  tryCatch
    (out <- execSync (lit "git log -1 --pretty=format:" ++ [34%N]
                        ++ lit "%h | %s | %an | %ci" ++ [34%N]) ;;
     match split 124 out with
     | c0 :: c1 :: c2 :: c3 :: _ =>
         match toISOString (trim c3) with
         | Some iso =>
             Ret (Some {| sha := trim c0; message := trim c1; author := trim c2;
                          date := iso |})
         | None => Throw (Err (lit "RangeError") (lit "Invalid time value"))
         end
     | _ => Throw (Err (lit "TypeError")
                     (lit "Cannot read properties of undefined (reading 'trim')"))
     end)
    (fun _ => Ret None).

Definition analyzeContext : Git Context :=
  isRepo <- isGitRepo ;;
  if negb isRepo then Ret (ContextError (lit "Not a Git repository"))
  else
    tryCatch
      (branch <- getCurrentBranch ;;
       status <- execSync (lit "git status --porcelain") ;;
       let isDirty := nonEmpty status in
       staged <- execSync (lit "git diff --cached --name-only") ;;
       let stagedFiles := countLines staged in
       unstaged <- execSync (lit "git diff --name-only") ;;
       let unstagedFiles := countLines unstaged in
       untracked <- execSync (lit "git ls-files --others --exclude-standard") ;;
       let untrackedFiles := countLines untracked in
       ref <- execSync (lit "git symbolic-ref -q HEAD") ;;
       let isDetached := nonEmpty ref in
       remoteStatus <- getRemoteStatus ;;
       lastCommit <- getLastCommitInfo ;;
       stashes <- execSync (lit "git stash list") ;;
       let stashCount := countLines stashes in
       Ret (Analyzed
              {| branch := branch; is_dirty := isDirty; staged_files := stagedFiles;
                 unstaged_files := unstagedFiles; untracked_files := untrackedFiles;
                 is_detached := isDetached; remote_status := remoteStatus;
                 last_commit := lastCommit; stash_count := stashCount |}))
      (fun error =>
         Ret (ContextError (lit "Failed to analyze context: " ++ showError error))).

End Analyzer.

End ContextAnalyzer.

(** ** Sample inputs

    Concrete commands, replies and repositories on which the properties of
    Part II are evaluated. *)

Module Samples.

Definition newline : jsstring := [10%N].

Definition repoPath : jsstring := lit "/home/dev/project".

(** What [JSON.parse] throws on a text that is not JSON; the samples give it
    no other text. *)
Definition rejectText (text : jsstring) : exn + Empty_set :=
  inl (Err (lit "SyntaxError") (lit "Unexpected token in JSON")).

(** A generator whose context is the result of the inspector, whose prompt
    is the request itself and whose provider replies with plain text. *)
Definition promptOf (userInput : jsstring) (context : ContextAnalyzer.Context)
  : jsstring := userInput.

Definition replyText (reply : jsstring) : exn + option jsstring := inr (Some reply).

Definition noContext : ContextAnalyzer.Context :=
  ContextAnalyzer.ContextError (lit "Not a Git repository").

(** The error [execSync] throws when a command exits with a non-zero status. *)
Definition commandFailed (command : jsstring) : exn :=
  newError (lit "Command failed: " ++ command).

(** A repository on branch [main], no remote, one commit, nothing to report. *)
Definition cleanRepo (command : jsstring) : exn + jsstring :=
  if eqb command (lit "git rev-parse --abbrev-ref HEAD") then inr (lit "main" ++ newline)
  else if eqb command (lit "git symbolic-ref -q HEAD")
       then inr (lit "refs/heads/main" ++ newline)
  else if eqb command (lit "git remote show origin") then inl (commandFailed command)
  else if startsWith command (lit "git log -1")
       then inr (lit "1a2b3c4 | first commit | dev | 2024-05-01 10:00:00 +0000")
  else inr [].

(** The same repository with a detached HEAD: [git symbolic-ref -q HEAD]
    exits with status 1 and prints nothing. *)
Definition detachedHead (command : jsstring) : exn + jsstring :=
  if eqb command (lit "git symbolic-ref -q HEAD") then inl (commandFailed command)
  else if eqb command (lit "git rev-parse --abbrev-ref HEAD") then inr (lit "HEAD" ++ newline)
  else cleanRepo command.

(** The same repository with one staged file, [a.txt]. *)
Definition oneStagedFile (command : jsstring) : exn + jsstring :=
  if eqb command (lit "git diff --cached --name-only") then inr (lit "a.txt" ++ newline)
  else if eqb command (lit "git status --porcelain") then inr (lit "A  a.txt" ++ newline)
  else cleanRepo command.

Definition isoDate (text : jsstring) : option jsstring :=
  Some (lit "2024-05-01T10:00:00.000Z").

End Samples.

(** ** [extension.ts] and [webviewProvider.ts]: [getModelChoice] *)

Module Extension.

Definition modelMap : list (jsstring * jsstring) :=
  [ (lit "gemini", lit "1"); (lit "groq-llama-3.1", lit "2");
    (lit "groq-llama-3.3", lit "3"); (lit "deepseek", lit "4") ].

(** What [modelMap[defaultModel] || '1'] evaluates to: a key of the model
    registry, or, when [defaultModel] names a property of [Object.prototype],
    that inherited value, which is truthy and is not a string. *)
Inductive Choice :=
| Key (modelChoice : jsstring)
| InheritedValue (property : jsstring).

Definition getModelChoice (defaultModel : jsstring) : Choice :=
  match find (fun entry => eqb (fst entry) defaultModel) modelMap with
  | Some (_, modelChoice) => Key modelChoice
  | None =>
      if existsb (eqb defaultModel) AIEngine.inheritedKeys
      then InheritedValue defaultModel
      else Key (lit "1")
  end.

End Extension.

(** ** Further sample inputs *)

Module Scenarios.

(** A subprocess layer on which every command succeeds and prints [ok]. *)
Definition succeeds (q : GitExecutor.SpawnRequest) : GitExecutor.SpawnOutcome :=
  GitExecutor.Resolved (lit "ok" ++ Samples.newline) [].

(** A provider that cannot be reached. *)
Definition unreachable (q : AIEngine.HttpRequest) : exn + jsstring :=
  inl (Err (lit "AxiosError") (lit "connect ECONNREFUSED")).

(** A directory that is not a repository: every [git] command fails. *)
Definition notARepo (command : jsstring) : exn + jsstring :=
  inl (Samples.commandFailed command).

(** The fields of a JSON object, the object, and [JSON.parse] on the text of
    that object. *)
Definition statusFields : jsstring :=
  AIEngine.dq ++ lit "command" ++ AIEngine.dq ++ lit ": "
  ++ AIEngine.dq ++ lit "git status" ++ AIEngine.dq ++ lit ", "
  ++ AIEngine.dq ++ lit "explanation" ++ AIEngine.dq ++ lit ": "
  ++ AIEngine.dq ++ lit "shows the working tree" ++ AIEngine.dq ++ lit ", "
  ++ AIEngine.dq ++ lit "warning" ++ AIEngine.dq ++ lit ": null".

Definition statusObject : jsstring := 123%N :: statusFields ++ [125%N].

Definition statusValue : AIEngine.AIResponse :=
  {| AIEngine.command := Some (lit "git status");
     AIEngine.explanation := lit "shows the working tree";
     AIEngine.warning := None |}.

Definition parseStatus (text : jsstring) : exn + AIEngine.AIResponse :=
  if eqb text statusObject then inr statusValue
  else inl (Err (lit "SyntaxError") (lit "Unexpected token in JSON")).

(** [new Date(text).toISOString()] on the one date of the samples; any other
    text is not a date. *)
Definition isoOf (text : jsstring) : option jsstring :=
  if eqb text (lit "2024-05-01 10:00:00 +0000")
  then Some (lit "2024-05-01T10:00:00.000Z")
  else None.

(** A repository whose last commit has a bar in its subject. *)
Definition barInSubject (command : jsstring) : exn + jsstring :=
  if startsWith command (lit "git log -1")
  then inr (lit "1a2b3c4 | fix a|b parser | dev | 2024-05-01 10:00:00 +0000")
  else Samples.cleanRepo command.


End Scenarios.

(** ** Notions used to state the properties *)

(** A text that is empty or starts with a character [trim] keeps. *)
Definition headSolid (s : jsstring) : bool :=
  match s with
  | [] => true
  | u :: _ => negb (isWhiteSpace u)
  end.

(** A text without the character [c]. *)
Definition without (c : N) (s : jsstring) : bool :=
  forallb (fun u => negb (u =? c)%N) s.

(** The command line of [getLastCommitInfo]. *)
Definition logCommand : jsstring :=
  lit "git log -1 --pretty=format:" ++ [34%N] ++ lit "%h | %s | %an | %ci" ++ [34%N].

(** The six queries [analyzeContext] runs directly inside its [try]. *)
Definition unguardedQueries : list jsstring :=
  [ lit "git status --porcelain"; lit "git diff --cached --name-only";
    lit "git diff --name-only"; lit "git ls-files --others --exclude-standard";
    lit "git symbolic-ref -q HEAD"; lit "git stash list" ].

(** The two shapes of a remote status: all four fields, with [up_to_date]
    only when nothing is ahead or behind, or [has_remote = false] alone. *)
Definition remoteConsistent (rs : ContextAnalyzer.RemoteStatus) : Prop :=
  if ContextAnalyzer.has_remote rs
  then exists a b u,
         ContextAnalyzer.ahead rs = Some a /\ ContextAnalyzer.behind rs = Some b
         /\ ContextAnalyzer.up_to_date rs = Some u
         /\ (u = true -> a = 0%N /\ b = 0%N)
  else ContextAnalyzer.ahead rs = None /\ ContextAnalyzer.behind rs = None
       /\ ContextAnalyzer.up_to_date rs = None.


(* ================================================================== *)
(** * Part II. Properties *)
(* ================================================================== *)

(** ** Strings *)

Section StringFacts.

Lemma startsWith_app (p r : jsstring) : startsWith (p ++ r) p = true.
Proof.
  induction p as [|b p IH]; simpl; [reflexivity|].
  now rewrite N.eqb_refl, IH.
Qed.

Lemma startsWith_inv (s p : jsstring) :
  startsWith s p = true -> exists r, s = p ++ r.
Proof.
  revert s; induction p as [|b p IH]; intros s H.
  - now exists s.
  - destruct s as [|a s]; simpl in H; [discriminate|].
    apply andb_true_iff in H as [Hab Hs].
    apply N.eqb_eq in Hab; subst b.
    destruct (IH _ Hs) as [r ->].
    now exists r.
Qed.

Lemma includes_here (s p : jsstring) : startsWith s p = true -> includes s p = true.
Proof.
  intros H. destruct s; simpl; rewrite H; reflexivity.
Qed.

Lemma includes_app (l p r : jsstring) : includes (l ++ p ++ r) p = true.
Proof.
  induction l as [|a l IH].
  - simpl. apply includes_here, startsWith_app.
  - simpl. rewrite IH. apply orb_true_r.
Qed.

Lemma includes_inv (s p : jsstring) :
  includes s p = true -> exists l r, s = l ++ p ++ r.
Proof.
  induction s as [|a s IH]; simpl; intros H.
  - rewrite orb_false_r in H.
    destruct (startsWith_inv _ _ H) as [r Hr]. now exists [], r.
  - apply orb_true_iff in H as [H|H].
    + destruct (startsWith_inv _ _ H) as [r Hr]. now exists [], r.
    + destruct (IH H) as (l & r & ->). now exists (a :: l), r.
Qed.

(** [trimStart] drops a prefix, and nothing of a text that begins with a
    character that is not white space. *)
Lemma trimStart_suffix (s : jsstring) : exists l, s = l ++ trimStart s.
Proof.
  induction s as [|a s [l IH]]; simpl.
  - now exists [].
  - destruct (isWhiteSpace a).
    + exists (a :: l). simpl. now rewrite <- IH.
    + now exists [].
Qed.

Lemma trimStart_keeps (l p r : jsstring) (a : N) :
  isWhiteSpace a = false ->
  exists l', trimStart (l ++ (a :: p) ++ r) = l' ++ (a :: p) ++ r.
Proof.
  intros Ha. induction l as [|b l [l' IH]]; simpl.
  - rewrite Ha. now exists [].
  - destruct (isWhiteSpace b).
    + now exists l'.
    + now exists (b :: l).
Qed.

Lemma trim_infix (s : jsstring) : exists l r, s = l ++ trim s ++ r.
Proof.
  unfold trim, trimEnd.
  destruct (trimStart_suffix s) as [l Hl].
  destruct (trimStart_suffix (rev (trimStart s))) as [r Hr].
  exists l, (rev r).
  rewrite <- rev_app_distr, <- Hr, rev_involutive. exact Hl.
Qed.

Definition solid (p : jsstring) : bool :=
  match p with
  | [] => false
  | _ => forallb (fun u => negb (isWhiteSpace u)) p
  end.

(** Trimming keeps every occurrence of a text that has no white space. *)
Lemma trim_keeps (l p r : jsstring) :
  solid p = true -> exists l' r', trim (l ++ p ++ r) = l' ++ p ++ r'.
Proof.
  intros Hp. unfold trim, trimEnd.
  destruct p as [|a p]; [discriminate|].
  unfold solid in Hp. rewrite forallb_forall in Hp.
  assert (Ha : isWhiteSpace a = false).
  { apply negb_true_iff, Hp. now left. }
  destruct (trimStart_keeps l p r a Ha) as [l' ->].
  destruct (rev (a :: p)) as [|z q] eqn:Erev.
  { apply (f_equal (@List.length N)) in Erev.
    rewrite length_rev in Erev. discriminate. }
  assert (Hz : isWhiteSpace z = false).
  { assert (Hin : In z (a :: p)).
    { apply in_rev. rewrite Erev. now left. }
    apply Hp in Hin. now apply negb_true_iff in Hin. }
  rewrite !rev_app_distr, Erev, <- app_assoc.
  destruct (trimStart_keeps (rev r) q (rev l') z Hz) as [r' ->].
  exists l', (rev r').
  rewrite <- Erev, !rev_app_distr, !rev_involutive.
  now rewrite <- app_assoc.
Qed.

Lemma includes_trim (s p : jsstring) :
  solid p = true -> includes (trim s) p = includes s p.
Proof.
  intros Hp.
  destruct (includes s p) eqn:E.
  - destruct (includes_inv _ _ E) as (l & r & ->).
    destruct (trim_keeps l p r Hp) as (l' & r' & ->).
    apply includes_app.
  - destruct (includes (trim s) p) eqn:E'; [|reflexivity].
    destruct (includes_inv _ _ E') as (l & r & Ht).
    destruct (trim_infix s) as (l0 & r0 & Hs).
    rewrite Ht in Hs.
    assert (includes s p = true).
    { rewrite Hs. rewrite <- !app_assoc, app_assoc.
      replace ((l0 ++ l) ++ p ++ r ++ r0) with ((l0 ++ l) ++ p ++ (r ++ r0)) by reflexivity.
      apply includes_app. }
    congruence.
Qed.

(** [split] gives one piece more than there are separators. *)
Lemma split_length (sep : N) (s : jsstring) :
  List.length (split sep s) = S (List.length (filter (N.eqb sep) s)).
Proof.
  induction s as [|u s IH]; simpl; [reflexivity|].
  rewrite (N.eqb_sym sep u).
  destruct (u =? sep)%N; simpl.
  - now rewrite IH.
  - destruct (split sep s); simpl in *; congruence.
Qed.

End StringFacts.

(** ** Computations *)

(** A computation that returns or throws at once makes no external call. *)
Lemma run_leaf (Req Ans A : Type) (world : Req -> Ans) (p : Prog Req Ans A) :
  (exists a, p = Ret a) \/ (exists e, p = Throw e) -> snd (run world p) = [].
Proof.
  intros [[a ->] | [e ->]]; reflexivity.
Qed.

Lemma fst_run_call (Req Ans A : Type) (world : Req -> Ans) (q : Req)
  (k : Ans -> Prog Req Ans A) :
  fst (run world (Call q k)) = fst (run world (k (world q))).
Proof.
  simpl. destruct (run world (k (world q))). reflexivity.
Qed.

(** ** The executor *)

Section ExecutorFacts.

Import GitExecutor.

Variable repoPath : jsstring.
Variable toLowerCase : jsstring -> jsstring.

Local Abbreviation execute := (GitExecutor.execute repoPath toLowerCase).
Local Abbreviation checkDestructiveOperations :=
  (GitExecutor.checkDestructiveOperations toLowerCase).
Local Abbreviation isDestructiveCommand := (GitExecutor.isDestructiveCommand toLowerCase).

Lemma dangerousChars_solid (char : jsstring) :
  In char dangerousChars -> solid char = true.
Proof.
  unfold dangerousChars. simpl.
  intros H. repeat (destruct H as [<- | H]; [reflexivity|]). contradiction.
Qed.

Lemma firstDangerous_trim (chars : list jsstring) (c : jsstring) :
  (forall char, In char chars -> solid char = true) ->
  firstDangerous chars (trim c) = firstDangerous chars c.
Proof.
  induction chars as [|char chars IH]; intros Hs; simpl; [reflexivity|].
  rewrite includes_trim by (apply Hs; now left).
  rewrite IH by (intros; apply Hs; now right). reflexivity.
Qed.

Lemma firstDangerous_found (chars : list jsstring) (c : jsstring) :
  existsb (includes c) chars = true ->
  exists char, In char chars /\ includes c char = true
               /\ firstDangerous chars c = Some char.
Proof.
  induction chars as [|char chars IH]; simpl; [discriminate|].
  destruct (includes c char) eqn:E; simpl.
  - intros _. exists char. auto.
  - intros H. destruct (IH H) as (ch & Hin & Hinc & Hf). exists ch. auto.
Qed.

Lemma firstDangerous_clean (chars : list jsstring) (c : jsstring) :
  existsb (includes c) chars = false -> firstDangerous chars c = None.
Proof.
  induction chars as [|char chars IH]; simpl; [reflexivity|].
  destruct (includes c char); simpl; [discriminate|exact IH].
Qed.

(** What [cleanCommand] does with a command that starts with [git] once
    trimmed: the prefix branch is not taken. *)
Lemma cleanCommand_git (c : jsstring) :
  startsWith (trim c) (lit "git") = true ->
  cleanCommand c =
    match firstDangerous dangerousChars c with
    | Some char => Throw (injectionError char)
    | None => Ret (trim c)
    end.
Proof.
  intros Hg. unfold cleanCommand. rewrite Hg. simpl negb. cbv iota.
  now rewrite (firstDangerous_trim dangerousChars c dangerousChars_solid).
Qed.

(** The guard of [execute], read off the code. *)
Lemma execute_guard (c : jsstring) (dryRun autoConfirm : bool) :
  startsWith (trim c) (lit "git") = false ->
  execute c dryRun autoConfirm = Ret invalidCommand.
Proof.
  intros Hg. unfold GitExecutor.execute. rewrite Hg.
  now rewrite orb_true_r.
Qed.

Lemma execute_accepted (c : jsstring) (dryRun autoConfirm : bool) :
  startsWith (trim c) (lit "git") = true ->
  c <> [] ->
  execute c dryRun autoConfirm =
    bind (cleanCommand c)
      (fun cleaned =>
         let warnings := checkDestructiveOperations cleaned in
         if dryRun then
           Ret {| success := true; output := Some (lit "Would execute: " ++ cleaned);
                  error := Some []; executed := false; warnings := Some warnings;
                  return_code := None |}
         else
           Call {| spawnCommand := cleaned; cwd := repoPath; timeout := 30000 |}
             (fun settled =>
                match settled with
                | Resolved stdout stderr =>
                    Ret {| success := true; output := Some stdout;
                           error := Some (orElse (Some stderr) []); executed := true;
                           warnings := Some warnings; return_code := Some (CodeNum 0) |}
                | Rejected e =>
                    Ret {| success := false; output := Some (orElse (errStdout e) []);
                           error := Some (orElse (errStderr e)
                                            (orElse (errMsg e) (lit "Command execution failed")));
                           executed := false; warnings := Some warnings;
                           return_code :=
                             Some match errCode e with
                                  | Some (CodeNum 0) | Some (CodeStr []) | None => CodeNum 1
                                  | Some c => c
                                  end |}
                end)).
Proof.
  intros Hg Hc. unfold GitExecutor.execute. rewrite Hg.
  destruct c as [|u c]; [contradiction|]. reflexivity.
Qed.

Lemma startsWith_git_nonempty (c : jsstring) :
  startsWith (trim c) (lit "git") = true -> c <> [].
Proof.
  intros H ->. discriminate.
Qed.

(** The loop of [cleanCommand] stops at the first string of the table that
    the command includes: every string before it in the table is absent. *)
Lemma firstDangerous_first (chars : list jsstring) (c : jsstring) :
  existsb (includes c) chars = true ->
  exists before char after,
    chars = before ++ char :: after
    /\ (forall earlier, In earlier before -> includes c earlier = false)
    /\ includes c char = true
    /\ firstDangerous chars c = Some char.
Proof.
  induction chars as [|d chars IH]; simpl; [discriminate|].
  destruct (includes c d) eqn:E; simpl.
  - intros _. exists [], d, chars. repeat split; auto. intros earlier [].
  - intros H. destruct (IH H) as (before & char & after & -> & Hbefore & Hinc & Hf).
    exists (d :: before), char, after. repeat split; auto.
    intros earlier [<- | Hin]; auto.
Qed.

(** C1 (as amended): a command that contains a forbidden metacharacter never
    reaches a subprocess, whatever [dryRun] is.  When its trimmed form starts
    with [git], [execute] throws the injection error for the first forbidden
    string of the table that occurs in it: the table splits into the strings
    before it, none of which occurs in the command, that string, and the
    rest.  Otherwise the guard returns the [Invalid Git command] result as a
    value. *)
Theorem execute_rejects_injection (c : jsstring) (dryRun autoConfirm : bool) :
  existsb (includes c) dangerousChars = true ->
  (if startsWith (trim c) (lit "git")
   then exists before char after,
          dangerousChars = before ++ char :: after
          /\ (forall earlier, In earlier before -> includes c earlier = false)
          /\ In char dangerousChars /\ includes c char = true
          /\ execute c dryRun autoConfirm = Throw (injectionError char)
   else execute c dryRun autoConfirm = Ret invalidCommand)
  /\ forall world, snd (run world (execute c dryRun autoConfirm)) = [].
Proof.
  intros Hdanger.
  destruct (startsWith (trim c) (lit "git")) eqn:Hg.
  - destruct (firstDangerous_first _ _ Hdanger)
      as (before & char & after & Htable & Hbefore & Hinc & Hfirst).
    assert (Hthrow : execute c dryRun autoConfirm = Throw (injectionError char)).
    { rewrite execute_accepted by (auto using startsWith_git_nonempty).
      rewrite (cleanCommand_git _ Hg), Hfirst. reflexivity. }
    split.
    + exists before, char, after. repeat split; auto.
      rewrite Htable. apply in_or_app. right. now left.
    + intros world. apply run_leaf. right. eauto.
  - pose proof (execute_guard c dryRun autoConfirm Hg) as Hret.
    split; [exact Hret|].
    intros world. apply run_leaf. left. eauto.
Qed.

(** [checkDestructiveOperations] pushes, in table order, the warning of every
    entry whose pattern the lowercase command includes. *)
Lemma pushWarnings_filter (entries : list (jsstring * jsstring)) (c : jsstring)
  (acc : list jsstring) :
  pushWarnings toLowerCase entries c acc =
    acc ++ map (fun entry => warningGlyph ++ lit " " ++ snd entry)
             (filter (fun entry => includes (toLowerCase c) (fst entry)) entries).
Proof.
  revert acc. induction entries as [|[destructiveCmd warning] entries IH]; intros acc.
  - simpl. now rewrite app_nil_r.
  - simpl. destruct (includes (toLowerCase c) destructiveCmd).
    + rewrite IH. simpl. now rewrite <- app_assoc.
    + apply IH.
Qed.

(** C2: [isDestructiveCommand] holds exactly when the lowercase command
    includes one of the six patterns, and [checkDestructiveOperations] gives
    one warning for each pattern that occurs, in the order of the table. *)
Theorem destructive_detection (c : jsstring) :
  map fst destructiveCommands =
    [ lit "reset --hard"; lit "clean -f"; lit "push --force"; lit "rebase";
      lit "cherry-pick"; lit "merge --no-ff" ]
  /\ (isDestructiveCommand c = true <->
      exists pattern, In pattern (map fst destructiveCommands)
                      /\ includes (toLowerCase c) pattern = true)
  /\ checkDestructiveOperations c =
       map (fun entry => warningGlyph ++ lit " " ++ snd entry)
         (filter (fun entry => includes (toLowerCase c) (fst entry))
            destructiveCommands).
Proof.
  split; [reflexivity|]. split.
  - unfold GitExecutor.isDestructiveCommand. rewrite existsb_exists. reflexivity.
  - unfold GitExecutor.checkDestructiveOperations. apply pushWarnings_filter.
Qed.

Lemma execute_dryRun_cases (c : jsstring) (autoConfirm : bool) :
  execute c true autoConfirm = Ret invalidCommand
  \/ (exists e, execute c true autoConfirm = Throw e)
  \/ (exists cleaned, execute c true autoConfirm = Ret (GitExecutor.dryRunResult toLowerCase cleaned)).
Proof.
  destruct (startsWith (trim c) (lit "git")) eqn:Hg.
  - rewrite execute_accepted by (auto using startsWith_git_nonempty).
    rewrite (cleanCommand_git _ Hg).
    destruct (firstDangerous dangerousChars c) as [char|]; simpl.
    + right; left. eauto.
    + right; right. exists (trim c). reflexivity.
  - left. now apply execute_guard.
Qed.

(** C3: a dry run of a well-formed command without a forbidden
    metacharacter returns [success = true], [executed = false] and the output
    [Would execute: ] followed by the normalised command, which is the trimmed
    command; and whatever the command, a dry run makes no external call and a
    result it returns has [executed = false]. *)
Theorem execute_dryRun (c : jsstring) (autoConfirm : bool) :
  (startsWith (trim c) (lit "git") = true ->
   existsb (includes c) dangerousChars = false ->
   cleanCommand c = Ret (trim c)
   /\ execute c true autoConfirm =
        Ret {| success := true; output := Some (lit "Would execute: " ++ trim c);
               error := Some []; executed := false;
               warnings := Some (checkDestructiveOperations (trim c));
               return_code := None |})
  /\ (forall world,
        snd (run world (execute c true autoConfirm)) = []
        /\ forall r, fst (run world (execute c true autoConfirm)) = inr r ->
                     executed r = false).
Proof.
  split.
  - intros Hg Hclean.
    assert (Hcc : cleanCommand c = Ret (trim c)).
    { rewrite (cleanCommand_git _ Hg).
      now rewrite (firstDangerous_clean _ _ Hclean). }
    split; [exact Hcc|].
    rewrite execute_accepted by (auto using startsWith_git_nonempty).
    rewrite Hcc. reflexivity.
  - intros world.
    destruct (execute_dryRun_cases c autoConfirm) as [-> | [[e ->] | [cleaned ->]]];
      simpl; (split; [reflexivity|]); intros r H; inversion H; reflexivity.
Qed.

(** C4 (as amended): [cleanCommand] puts [git ] in front of a trimmed command
    that does not start with [git], but [execute] never hands it such a
    command: its guard returns the [Invalid Git command] result, for every
    [dryRun], without any external call. *)
Theorem execute_rejects_unprefixed (c : jsstring) (dryRun autoConfirm : bool) :
  startsWith (trim c) (lit "git") = false ->
  execute c dryRun autoConfirm = Ret invalidCommand
  /\ (firstDangerous dangerousChars (lit "git " ++ trim c) = None ->
      cleanCommand c = Ret (lit "git " ++ trim c)).
Proof.
  intros Hg. split.
  - now apply execute_guard.
  - intros Hclean. unfold cleanCommand. rewrite Hg. simpl negb. cbv iota.
    now rewrite Hclean.
Qed.

(** C10: [autoConfirm] is never read: both of its values give the same
    computation, for every command and every [dryRun]. *)
Theorem execute_ignores_autoConfirm (c : jsstring) (dryRun : bool) :
  execute c dryRun true = execute c dryRun false.
Proof.
  unfold GitExecutor.execute.
  destruct (negb (truthy (Some c)) || negb (startsWith (trim c) (lit "git")));
    reflexivity.
Qed.

End ExecutorFacts.

(** ** The command generator *)

Section EngineFacts.

Import AIEngine.

Variable geminiApiKey groqApiKey : option jsstring.
Variable toLowerCase : jsstring -> jsstring.
Variable JSON : Type.
Variable JSON_parse : jsstring -> exn + JSON.
Variable ContextInfo : Type.
Variable buildPrompt : jsstring -> ContextInfo -> jsstring.
Variable HttpResponse : Type.
Variable geminiText groqText : HttpResponse -> exn + option jsstring.

Local Abbreviation scanLine := (AIEngine.scanLine toLowerCase).
Local Abbreviation scanLines := (AIEngine.scanLines toLowerCase).
Local Abbreviation textFallback := (AIEngine.textFallback toLowerCase).
Local Abbreviation tryParse := (AIEngine.tryParse JSON_parse).
Local Abbreviation parseBody := (AIEngine.parseBody toLowerCase JSON_parse).
Local Abbreviation parseAIResponse := (AIEngine.parseAIResponse toLowerCase JSON_parse).
Local Abbreviation apiKeyOf := (AIEngine.apiKeyOf geminiApiKey groqApiKey).
Local Abbreviation generateCommand :=
  (AIEngine.generateCommand geminiApiKey groqApiKey toLowerCase JSON_parse
     buildPrompt geminiText groqText).

(** C8: when the key of the provider that [modelChoice] resolves to is not
    configured, [generateCommand] returns at once, without any HTTP request
    and without throwing, a result whose [command] is [null]. *)
Theorem generateCommand_without_key (userInput : jsstring) (context : ContextInfo)
  (modelChoice : jsstring) :
  (forall modelInfo, resolveModel modelChoice = Model modelInfo ->
                     truthy (apiKeyOf (provider modelInfo)) = false) ->
  exists r, generateCommand userInput context modelChoice = Ret (Text r)
            /\ command r = None
            /\ warning r = Some (lit "Please try again or use manual Git commands")
            /\ forall world,
                 run world (generateCommand userInput context modelChoice)
                 = (inr (Text r), []).
Proof.
  intros Hkey. unfold AIEngine.generateCommand.
  destruct (resolveModel modelChoice) as [modelInfo|] eqn:Hres.
  - specialize (Hkey modelInfo eq_refl).
    destruct (provider modelInfo); simpl in Hkey.
    + unfold generateWithGemini. rewrite Hkey. simpl.
      eexists. repeat split.
    + unfold generateWithGroq. rewrite Hkey. simpl.
      eexists. repeat split.
  - simpl. eexists. repeat split.
Qed.

(** *** The parser *)

(** The body of the outer [try] never throws: the handler that builds the
    [Failed to parse AI response] triple is not reached. *)
Lemma parseBody_returns (response : jsstring) :
  exists parsed, parseBody response = inr parsed.
Proof.
  unfold AIEngine.parseBody.
  destruct (match matchJsonObject response with
            | Some jsonMatch => tryParse jsonMatch
            | None => None
            end); [eauto|].
  destruct (if startsWith (trim response) (lit "{")
            then tryParse (trim response) else None); eauto.
Qed.

Lemma parse_body_falls_back (response : jsstring) :
  (forall jsonMatch, matchJsonObject response = Some jsonMatch ->
                     tryParse jsonMatch = None) ->
  (startsWith (trim response) (lit "{") = true -> tryParse (trim response) = None) ->
  parseBody response = inr (Text (textFallback response)).
Proof.
  intros H1 H2. unfold AIEngine.parseBody.
  destruct (matchJsonObject response) as [jsonMatch|].
  - rewrite (H1 jsonMatch eq_refl).
    destruct (startsWith (trim response) (lit "{")); [rewrite H2|]; reflexivity.
  - destruct (startsWith (trim response) (lit "{")); [rewrite H2|]; reflexivity.
Qed.

Lemma parse_falls_back (response : jsstring) :
  (forall jsonMatch, matchJsonObject response = Some jsonMatch ->
                     tryParse jsonMatch = None) ->
  (startsWith (trim response) (lit "{") = true -> tryParse (trim response) = None) ->
  parseAIResponse response = Text (textFallback response).
Proof.
  intros H1 H2. unfold AIEngine.parseAIResponse.
  now rewrite (parse_body_falls_back response H1 H2).
Qed.

Lemma command_scanLine (st : AIResponse) (line : jsstring) :
  command (scanLine st line) = findCommand (command st) (trim line).
Proof.
  unfold AIEngine.scanLine.
  repeat match goal with |- context [if ?b then _ else _] => destruct b end;
    reflexivity.
Qed.

(** Once a command is found no later line replaces it. *)
Lemma findCommand_keeps (cmd : option jsstring) (t : jsstring) :
  truthy cmd = true -> findCommand cmd t = cmd.
Proof.
  intros H. unfold findCommand. now rewrite H.
Qed.

Lemma findCommand_sets (t : jsstring) :
  findCommand None t = None \/ truthy (findCommand None t) = true.
Proof.
  unfold findCommand. change (negb (truthy None)) with true. cbv iota.
  destruct (startsWith t (lit "git ")) eqn:Hs.
  - right. destruct (startsWith_inv _ _ Hs) as [r ->]. reflexivity.
  - destruct (includes t (96%N :: lit "git ")); [|now left].
    destruct (matchGitFragment t) as [fragment|] eqn:Hm; [|now left].
    right. clear Hs. induction t as [|u t IH]; simpl in Hm; [discriminate|].
    destruct (u =? 96)%N; [|auto].
    destruct (gitFragmentAt t) as [f|] eqn:Hf; [|auto].
    injection Hm as <-. unfold gitFragmentAt in Hf.
    destruct (startsWith t (lit "git ")); [|discriminate].
    destruct (upTo 96 (skipn 4 t)) as [[|v run]|]; try discriminate.
    injection Hf as <-. reflexivity.
Qed.

Lemma command_sticky (lines : list jsstring) (st : AIResponse) :
  truthy (command st) = true ->
  command (fold_left scanLine lines st) = command st.
Proof.
  revert st. induction lines as [|line lines IH]; intros st H; simpl; [reflexivity|].
  assert (Hc : command (scanLine st line) = command st).
  { rewrite command_scanLine. now apply findCommand_keeps. }
  rewrite IH; rewrite Hc; auto.
Qed.

(** When the loop ends without a command, no line set one. *)
Lemma command_never_set (line : jsstring) (lines : list jsstring) (st : AIResponse) :
  command st = None ->
  command (fold_left scanLine (line :: lines) st) = None ->
  findCommand None (trim line) = None.
Proof.
  intros Hst Hend. simpl in Hend.
  destruct (findCommand_sets (trim line)) as [H|H]; [exact H|].
  rewrite command_sticky in Hend; rewrite command_scanLine, Hst in *.
  - rewrite Hend in H. discriminate.
  - exact H.
Qed.

Lemma textFallback_command_none (response : jsstring) :
  command (textFallback response) = None ->
  command (scanLines (split 10 response)) = None.
Proof.
  unfold AIEngine.textFallback. simpl.
  destruct (command (scanLines (split 10 response))) as [[|u c]|];
    intros H; try discriminate; reflexivity.
Qed.

Lemma warning_scanLine (st : AIResponse) (line : jsstring) :
  warning (scanLine st line) = warning st
  \/ warning (scanLine st line) = Some (trim line).
Proof.
  unfold AIEngine.scanLine.
  repeat match goal with |- context [if ?b then _ else _] => destruct b end;
    simpl; auto.
Qed.

Lemma warning_origin (lines : list jsstring) (st : AIResponse) :
  warning (fold_left scanLine lines st) = warning st
  \/ exists line, In line lines
                  /\ warning (fold_left scanLine lines st) = Some (trim line).
Proof.
  revert st. induction lines as [|line lines IH]; intros st; simpl; [now left|].
  destruct (IH (scanLine st line)) as [H | (l & Hin & H)].
  - rewrite H. destruct (warning_scanLine st line) as [H' | H']; [now left|].
    right. exists line. auto.
  - right. exists l. auto.
Qed.

(** A line that is neither a warning line nor a command, read while neither
    a command nor a warning is set, adds itself to the explanation exactly
    when it is prose. *)
Lemma scanLine_plain (e : jsstring) (line : jsstring) :
  isWarningLine (trim line) = false ->
  includes (toLowerCase (trim line)) (lit "warning") = false ->
  findCommand None (trim line) = None ->
  scanLine {| command := None; explanation := e; warning := None |} line
  = {| command := None;
       explanation := e ++ (if isProse (trim line) then trim line ++ lit " " else []);
       warning := None |}.
Proof.
  intros Hw Hweak Hcmd. unfold AIEngine.scanLine, isProse.
  cbv beta iota zeta delta [command explanation warning].
  rewrite Hcmd, Hw, Hweak.
  change (negb (truthy None)) with true.
  rewrite andb_false_l, andb_true_r.
  destruct (truthy (Some (trim line))), (startsWith (trim line) (lit "```")),
    (startsWith (trim line) (lit "`")), (includes (trim line) (lit "git "));
    simpl; rewrite ?app_nil_r; reflexivity.
Qed.

Lemma scanLines_plain (lines : list jsstring) (e : jsstring) :
  (forall line, In line lines ->
                isWarningLine (trim line) = false
                /\ includes (toLowerCase (trim line)) (lit "warning") = false) ->
  command (fold_left scanLine lines
             {| command := None; explanation := e; warning := None |}) = None ->
  fold_left scanLine lines {| command := None; explanation := e; warning := None |}
  = {| command := None;
       explanation := e ++ flat_map (fun l => l ++ lit " ")
                             (filter isProse (map trim lines));
       warning := None |}.
Proof.
  revert e. induction lines as [|line lines IH]; intros e Hplain Hend.
  - simpl. now rewrite app_nil_r.
  - destruct (Hplain line (or_introl eq_refl)) as [Hw Hweak].
    pose proof (command_never_set line lines
                  {| command := None; explanation := e; warning := None |}
                  eq_refl Hend) as Hcmd.
    simpl fold_left in *.
    rewrite (scanLine_plain e line Hw Hweak Hcmd) in *.
    rewrite IH; auto.
    + simpl. destruct (isProse (trim line)); simpl.
      * now rewrite <- !app_assoc.
      * now rewrite app_nil_r.
    + intros l Hl. apply Hplain. now right.
Qed.

(** C5 (as amended): when both JSON paths fail and the line heuristic finds
    no command, [parseAIResponse] returns the triple of the text fallback:
    [command = null], the trimmed explanation the loop accumulated, and the
    warning of the loop, which is [null] or a trimmed line of the response.
    When no line is a warning line, the warning is [null] and the explanation
    is the trimmed concatenation of the prose lines, each followed by a
    space.  The body of the outer [try] returns, so the handler that builds
    the [Failed to parse AI response] triple does not run. *)
Theorem parse_without_command (response : jsstring) :
  (forall jsonMatch, matchJsonObject response = Some jsonMatch ->
                     tryParse jsonMatch = None) ->
  (startsWith (trim response) (lit "{") = true -> tryParse (trim response) = None) ->
  command (textFallback response) = None ->
  parseAIResponse response =
    Text {| command := None;
            explanation := trim (explanation (scanLines (split 10 response)));
            warning := warning (scanLines (split 10 response)) |}
  /\ parseBody response = inr (Text (textFallback response))
  /\ (warning (scanLines (split 10 response)) = None
      \/ exists line, In line (split 10 response)
                      /\ warning (scanLines (split 10 response)) = Some (trim line))
  /\ ((forall line, In line (split 10 response) ->
                    isWarningLine (trim line) = false
                    /\ includes (toLowerCase (trim line)) (lit "warning") = false) ->
      parseAIResponse response =
        Text {| command := None;
                explanation :=
                  trim (flat_map (fun l => l ++ lit " ")
                          (filter isProse (map trim (split 10 response))));
                warning := None |}).
Proof.
  intros H1 H2 H3.
  pose proof (textFallback_command_none response H3) as Hnone.
  assert (Hparse : parseAIResponse response =
    Text {| command := None;
            explanation := trim (explanation (scanLines (split 10 response)));
            warning := warning (scanLines (split 10 response)) |}).
  { rewrite (parse_falls_back response H1 H2).
    unfold AIEngine.textFallback. rewrite Hnone. reflexivity. }
  split; [exact Hparse|]. split; [now apply parse_body_falls_back|]. split.
  - unfold AIEngine.scanLines. apply warning_origin.
  - intros Hplain. rewrite Hparse.
    unfold AIEngine.scanLines in *.
    rewrite (scanLines_plain (split 10 response) [] Hplain Hnone).
    reflexivity.
Qed.

(** *** Warning lines *)

Lemma isWarningLine_nonempty (t : jsstring) :
  isWarningLine t = true -> truthy (Some t) = true.
Proof.
  destruct t; [discriminate | reflexivity].
Qed.

Lemma warning_marker (st : AIResponse) (line : jsstring) :
  isWarningLine (trim line) = true ->
  warning (scanLine st line) = Some (trim line).
Proof.
  intros H. unfold AIEngine.scanLine. now rewrite H.
Qed.

Lemma warning_kept (lines : list jsstring) (st : AIResponse) :
  truthy (warning st) = true ->
  (forall l, In l lines -> isWarningLine (trim l) = false) ->
  warning (fold_left scanLine lines st) = warning st.
Proof.
  revert st. induction lines as [|line lines IH]; intros st Hset Hplain; [reflexivity|].
  cbn [fold_left].
  assert (Hstep : warning (scanLine st line) = warning st).
  { unfold AIEngine.scanLine.
    rewrite (Hplain line (or_introl eq_refl)), Hset.
    change (negb true) with false. rewrite andb_false_r.
    repeat match goal with |- context [if ?b then _ else _] => destruct b end;
      reflexivity. }
  rewrite IH; [exact Hstep | now rewrite Hstep |].
  intros l Hl. apply Hplain. now right.
Qed.

(** C9 (as amended): among the lines that start with [Warning:] or [Note:]
    or contain the warning glyph, the last one is the warning: each such
    line replaces the warning set before it. *)
Theorem warning_last_line_wins (response : jsstring) (before after : list jsstring)
  (line : jsstring) :
  split 10 response = before ++ line :: after ->
  isWarningLine (trim line) = true ->
  (forall l, In l after -> isWarningLine (trim l) = false) ->
  warning (textFallback response) = Some (trim line).
Proof.
  intros Hsplit Hmark Hafter.
  unfold AIEngine.textFallback. simpl warning.
  unfold AIEngine.scanLines. rewrite Hsplit, fold_left_app. simpl fold_left.
  rewrite warning_kept.
  - now apply warning_marker.
  - rewrite warning_marker by assumption. now apply isWarningLine_nonempty.
  - exact Hafter.
Qed.

End EngineFacts.

(** ** The repository inspector *)

Section AnalyzerFacts.

Import ContextAnalyzer.

(** The guarded helpers never throw: a failing query gives the fallback. *)
Lemma getCurrentBranch_guarded (world : jsstring -> exn + jsstring) :
  exists branch, fst (run world getCurrentBranch) = inr branch.
Proof.
  unfold getCurrentBranch, execSync. simpl.
  destruct (world (lit "git rev-parse --abbrev-ref HEAD")); simpl; eauto.
Qed.

Lemma getRemoteStatus_guarded (world : jsstring -> exn + jsstring) :
  exists status, fst (run world getRemoteStatus) = inr status.
Proof.
  unfold getRemoteStatus, execSync. simpl.
  destruct (world (lit "git remote show origin")); simpl; eauto.
Qed.

(** Whatever the other queries answer, a failure of the query of the
    detached flag ends in the error of the blanket handler. *)
Lemma analyzeContext_unguarded (toISOString : jsstring -> option jsstring)
  (world : jsstring -> exn + jsstring) (e : exn) :
  (exists out, world (lit "git status") = inr out) ->
  world (lit "git symbolic-ref -q HEAD") = inl e ->
  exists msg, fst (run world (analyzeContext toISOString)) = inr (ContextError msg).
Proof.
  intros [out Hstatus] Hdetached.
  unfold analyzeContext, isGitRepo, getCurrentBranch, execSync.
  cbn [bind tryCatch]. rewrite fst_run_call, Hstatus. cbn [bind tryCatch negb].
  repeat first
    [ rewrite fst_run_call;
      first [ rewrite Hdetached
            | match goal with |- context [world ?q] => destruct (world q) end ];
      cbn [bind tryCatch]
    | progress cbn [run fst]; eauto ].
Qed.

(** C6, at a repository with a detached HEAD: the query of the detached flag
    is not guarded, its failure reaches the blanket handler and the result is
    the error alone, although the branch, the dirty flag and the three file
    counts were computed before it. *)
Theorem analyzeContext_detached_head :
  run Samples.detachedHead (analyzeContext Samples.isoDate)
  = (inr (ContextError
            (lit "Failed to analyze context: Error: Command failed: git symbolic-ref -q HEAD")),
     [ lit "git status"; lit "git rev-parse --abbrev-ref HEAD";
       lit "git status --porcelain"; lit "git diff --cached --name-only";
       lit "git diff --name-only"; lit "git ls-files --others --exclude-standard";
       lit "git symbolic-ref -q HEAD" ]).
Proof.
  vm_compute. reflexivity.
Qed.

(** The count is the number of line feeds of the trimmed output. *)
Lemma countLines_separators (out : jsstring) :
  countLines out = Z.of_nat (List.length (filter (N.eqb 10) (trim out))).
Proof.
  unfold countLines. rewrite split_length. lia.
Qed.

(** C7, at an output of one line: the count is the number of line feeds
    left after trimming, so it is [0] where the output has one non-empty
    line; on the empty output both are [0]. *)
Theorem countLines_off_by_one :
  (forall out, countLines out = Z.of_nat (List.length (filter (N.eqb 10) (trim out))))
  /\ countLines (lit "a.txt" ++ Samples.newline) = 0%Z
  /\ nonEmptyLines (lit "a.txt" ++ Samples.newline) = 1%Z
  /\ countLines [] = 0%Z
  /\ nonEmptyLines [] = 0%Z
  /\ exists s calls,
       run Samples.oneStagedFile (analyzeContext Samples.isoDate) = (inr (Analyzed s), calls)
       /\ is_dirty s = true /\ staged_files s = 0%Z.
Proof.
  split; [exact countLines_separators|].
  repeat split; try (vm_compute; reflexivity).
  eexists. eexists. split; [vm_compute; reflexivity|].
  split; reflexivity.
Qed.

End AnalyzerFacts.

(** ** The properties at sample inputs *)

(** [git a | b ; c] starts with [git] and holds a pipe and, after it, a
    semicolon: the error names the semicolon, the first string of the table. *)
Lemma execute_rejects_injection_at_pipe :
  existsb (includes (lit "git a | b ; c")) GitExecutor.dangerousChars = true
  /\ ((if startsWith (trim (lit "git a | b ; c")) (lit "git")
       then exists before char after,
              GitExecutor.dangerousChars = before ++ char :: after
              /\ (forall earlier, In earlier before ->
                                  includes (lit "git a | b ; c") earlier = false)
              /\ In char GitExecutor.dangerousChars
              /\ includes (lit "git a | b ; c") char = true
              /\ GitExecutor.execute Samples.repoPath asciiToLowerCase
                   (lit "git a | b ; c") false false
                 = Throw (GitExecutor.injectionError char)
       else GitExecutor.execute Samples.repoPath asciiToLowerCase
              (lit "git a | b ; c") false false
            = Ret GitExecutor.invalidCommand)
      /\ forall world,
           snd (run world (GitExecutor.execute Samples.repoPath asciiToLowerCase
                             (lit "git a | b ; c") false false)) = [])
  /\ GitExecutor.execute Samples.repoPath asciiToLowerCase (lit "git a | b ; c") false false
     = Throw (GitExecutor.injectionError (lit ";")).
Proof.
  split; [reflexivity|]. split; [|reflexivity].
  apply (execute_rejects_injection Samples.repoPath asciiToLowerCase
           (lit "git a | b ; c") false false).
  reflexivity.
Defined.

(** C1 fails at [status; ls]: the command holds a semicolon, and [execute]
    returns the [Invalid Git command] result as a value; it does not throw. *)
Lemma execute_returns_on_injection_without_git :
  existsb (includes (lit "status; ls")) GitExecutor.dangerousChars = true
  /\ GitExecutor.execute Samples.repoPath asciiToLowerCase (lit "status; ls") false false
     = Ret GitExecutor.invalidCommand
  /\ GitExecutor.execute Samples.repoPath asciiToLowerCase (lit "status; ls") true false
     = Ret GitExecutor.invalidCommand
  /\ ~ exists e, GitExecutor.execute Samples.repoPath asciiToLowerCase
                   (lit "status; ls") false false = Throw e.
Proof.
  repeat split; try reflexivity.
  intros [e H]. discriminate H.
Qed.

(** A dry run of [  git status ]. *)
Lemma execute_dryRun_at_status :
  startsWith (trim (lit "  git status ")) (lit "git") = true
  /\ existsb (includes (lit "  git status ")) GitExecutor.dangerousChars = false
  /\ GitExecutor.execute Samples.repoPath asciiToLowerCase (lit "  git status ") true false
     = Ret {| GitExecutor.success := true;
              GitExecutor.output := Some (lit "Would execute: git status");
              GitExecutor.error := Some [];
              GitExecutor.executed := false;
              GitExecutor.warnings := Some [];
              GitExecutor.return_code := None |}.
Proof.
  split; [reflexivity|]. split; [reflexivity|].
  exact (proj2 (proj1 (execute_dryRun Samples.repoPath asciiToLowerCase
                         (lit "  git status ") false) eq_refl eq_refl)).
Defined.

(** [status] is rejected by the guard, and only [cleanCommand] would have
    put [git ] in front of it. *)
Lemma execute_rejects_unprefixed_at_status :
  startsWith (trim (lit "status")) (lit "git") = false
  /\ GitExecutor.execute Samples.repoPath asciiToLowerCase (lit "status") false false
     = Ret GitExecutor.invalidCommand
  /\ GitExecutor.cleanCommand (lit "status") = Ret (lit "git status").
Proof.
  split; [reflexivity|].
  destruct (execute_rejects_unprefixed Samples.repoPath asciiToLowerCase
              (lit "status") false false eq_refl) as [Hexec Hclean].
  split; [exact Hexec | exact (Hclean eq_refl)].
Defined.

(** C4 fails at [status]: [execute("status")] returns the invalid-command
    result, while [execute("git status")] spawns [git status] (and, on a dry
    run, reports what it would execute). *)
Lemma execute_status_differs_from_git_status :
  GitExecutor.execute Samples.repoPath asciiToLowerCase (lit "status") false false
  = Ret GitExecutor.invalidCommand
  /\ (exists k,
        GitExecutor.execute Samples.repoPath asciiToLowerCase (lit "git status") false false
        = Call {| GitExecutor.spawnCommand := lit "git status";
                  GitExecutor.cwd := Samples.repoPath;
                  GitExecutor.timeout := 30000 |} k)
  /\ GitExecutor.execute Samples.repoPath asciiToLowerCase (lit "status") true false
     = Ret GitExecutor.invalidCommand
  /\ GitExecutor.execute Samples.repoPath asciiToLowerCase (lit "git status") true false
     = Ret (GitExecutor.dryRunResult asciiToLowerCase (lit "git status")).
Proof.
  split; [reflexivity|]. split; [eexists; reflexivity|].
  split; reflexivity.
Qed.

(** A generator without keys, asked for model [1]. *)
Lemma generateCommand_without_key_at_default :
  (forall modelInfo,
     AIEngine.resolveModel (lit "1") = AIEngine.Model modelInfo ->
     truthy (AIEngine.apiKeyOf None None (AIEngine.provider modelInfo)) = false)
  /\ exists r,
       AIEngine.generateCommand None None asciiToLowerCase Samples.rejectText
         Samples.promptOf Samples.replyText Samples.replyText
         (lit "undo the last commit") Samples.noContext (lit "1")
       = Ret (AIEngine.Text r)
       /\ AIEngine.command r = None
       /\ AIEngine.warning r = Some (lit "Please try again or use manual Git commands")
       /\ forall world,
            run world
              (AIEngine.generateCommand None None asciiToLowerCase Samples.rejectText
                 Samples.promptOf Samples.replyText Samples.replyText
                 (lit "undo the last commit") Samples.noContext (lit "1"))
            = (inr (AIEngine.Text r), []).
Proof.
  assert (Hkey : forall modelInfo,
             AIEngine.resolveModel (lit "1") = AIEngine.Model modelInfo ->
             truthy (AIEngine.apiKeyOf None None (AIEngine.provider modelInfo)) = false).
  { intros modelInfo _. destruct (AIEngine.provider modelInfo); reflexivity. }
  split; [exact Hkey|].
  exact (generateCommand_without_key None None asciiToLowerCase Samples.rejectText
           Samples.promptOf Samples.replyText Samples.replyText
           (lit "undo the last commit") Samples.noContext (lit "1") Hkey).
Defined.

(** A reply that opens a brace and is not JSON, then a line of prose: both
    JSON paths fail, no line holds a command, and the triple of the text
    fallback is returned. *)
Lemma parse_without_command_at_broken_json :
  (forall jsonMatch,
     AIEngine.matchJsonObject (lit "{ oops" ++ Samples.newline ++ lit "ask again")
     = Some jsonMatch ->
     AIEngine.tryParse Samples.rejectText jsonMatch = None)
  /\ (startsWith (trim (lit "{ oops" ++ Samples.newline ++ lit "ask again")) (lit "{") = true ->
      AIEngine.tryParse Samples.rejectText
        (trim (lit "{ oops" ++ Samples.newline ++ lit "ask again")) = None)
  /\ AIEngine.command
       (AIEngine.textFallback asciiToLowerCase
          (lit "{ oops" ++ Samples.newline ++ lit "ask again")) = None
  /\ AIEngine.parseAIResponse asciiToLowerCase Samples.rejectText
       (lit "{ oops" ++ Samples.newline ++ lit "ask again")
     = AIEngine.Text {| AIEngine.command := None;
                        AIEngine.explanation := lit "{ oops ask again";
                        AIEngine.warning := None |}.
Proof.
  assert (H1 : forall jsonMatch,
             AIEngine.matchJsonObject (lit "{ oops" ++ Samples.newline ++ lit "ask again")
             = Some jsonMatch ->
             AIEngine.tryParse Samples.rejectText jsonMatch = None)
    by (intros; reflexivity).
  assert (H2 : startsWith (trim (lit "{ oops" ++ Samples.newline ++ lit "ask again"))
                 (lit "{") = true ->
               AIEngine.tryParse Samples.rejectText
                 (trim (lit "{ oops" ++ Samples.newline ++ lit "ask again")) = None)
    by (intros; reflexivity).
  assert (H3 : AIEngine.command
                 (AIEngine.textFallback asciiToLowerCase
                    (lit "{ oops" ++ Samples.newline ++ lit "ask again")) = None)
    by reflexivity.
  split; [exact H1|]. split; [exact H2|]. split; [exact H3|].
  refine (proj2 (proj2 (proj2 (parse_without_command asciiToLowerCase Samples.rejectText
                          (lit "{ oops" ++ Samples.newline ++ lit "ask again")
                          H1 H2 H3))) _).
  intros line [<- | [<- | []]]; split; reflexivity.
Defined.

(** C5 fails at a two-line reply without braces: every parsing path fails,
    and the result has the lines joined by a space as its explanation and no
    warning; it is not the [Failed to parse AI response] triple. *)
Lemma parse_gibberish_is_not_the_failure_triple :
  AIEngine.matchJsonObject (lit "no idea" ++ Samples.newline ++ lit "sorry") = None
  /\ startsWith (trim (lit "no idea" ++ Samples.newline ++ lit "sorry")) (lit "{") = false
  /\ AIEngine.command
       (AIEngine.textFallback asciiToLowerCase
          (lit "no idea" ++ Samples.newline ++ lit "sorry")) = None
  /\ (forall (JSON : Type) (JSON_parse : jsstring -> exn + JSON),
        AIEngine.parseAIResponse asciiToLowerCase JSON_parse
          (lit "no idea" ++ Samples.newline ++ lit "sorry")
        = AIEngine.Text {| AIEngine.command := None;
                           AIEngine.explanation := lit "no idea sorry";
                           AIEngine.warning := None |})
  /\ (forall (JSON : Type) (JSON_parse : jsstring -> exn + JSON),
        AIEngine.parseAIResponse asciiToLowerCase JSON_parse
          (lit "no idea" ++ Samples.newline ++ lit "sorry")
        <> AIEngine.Text
             (AIEngine.parseFailure (lit "no idea" ++ Samples.newline ++ lit "sorry"))).
Proof.
  split; [reflexivity|]. split; [reflexivity|]. split; [reflexivity|].
  split.
  - intros JSON JSON_parse. reflexivity.
  - intros JSON JSON_parse H. discriminate H.
Qed.

(** Two warning lines: the second is the last one. *)
Lemma warning_last_line_wins_at_two :
  split 10 (lit "Warning: this rewrites history" ++ Samples.newline
            ++ lit "Note: the branch is shared")
  = [lit "Warning: this rewrites history"] ++ lit "Note: the branch is shared" :: []
  /\ AIEngine.isWarningLine (trim (lit "Note: the branch is shared")) = true
  /\ AIEngine.warning
       (AIEngine.textFallback asciiToLowerCase
          (lit "Warning: this rewrites history" ++ Samples.newline
           ++ lit "Note: the branch is shared"))
     = Some (trim (lit "Note: the branch is shared")).
Proof.
  split; [reflexivity|]. split; [reflexivity|].
  apply (warning_last_line_wins asciiToLowerCase
           (lit "Warning: this rewrites history" ++ Samples.newline
            ++ lit "Note: the branch is shared")
           [lit "Warning: this rewrites history"] []
           (lit "Note: the branch is shared")).
  - reflexivity.
  - reflexivity.
  - intros l [].
Defined.

(** C9 fails at the same reply: its first warning line is
    [Warning: this rewrites history], and the warning returned is the later
    [Note: the branch is shared]. *)
Lemma first_warning_line_is_replaced :
  split 10 (lit "Warning: this rewrites history" ++ Samples.newline
            ++ lit "Note: the branch is shared")
  = [lit "Warning: this rewrites history"; lit "Note: the branch is shared"]
  /\ AIEngine.isWarningLine (trim (lit "Warning: this rewrites history")) = true
  /\ AIEngine.isWarningLine (trim (lit "Note: the branch is shared")) = true
  /\ AIEngine.warning
       (AIEngine.textFallback asciiToLowerCase
          (lit "Warning: this rewrites history" ++ Samples.newline
           ++ lit "Note: the branch is shared"))
     = Some (lit "Note: the branch is shared")
  /\ AIEngine.warning
       (AIEngine.textFallback asciiToLowerCase
          (lit "Warning: this rewrites history" ++ Samples.newline
           ++ lit "Note: the branch is shared"))
     <> Some (trim (lit "Warning: this rewrites history")).
Proof.
  repeat split; try reflexivity.
  intros H. discriminate H.
Qed.

(* ================================================================== *)
(** * Part III. Further properties of the code *)
(* ================================================================== *)

(** ** Strings *)

Section TrimFacts.

Lemma trimStart_headSolid (s : jsstring) : headSolid (trimStart s) = true.
Proof.
  induction s as [|u s IH]; simpl; [reflexivity|].
  destruct (isWhiteSpace u) eqn:E; [exact IH|].
  simpl. now rewrite E.
Qed.

Lemma trimStart_id (s : jsstring) : headSolid s = true -> trimStart s = s.
Proof.
  destruct s as [|u s]; simpl; [reflexivity|].
  intros H. apply negb_true_iff in H. now rewrite H.
Qed.

Lemma headSolid_app (a b : jsstring) : headSolid (a ++ b) = true -> headSolid a = true.
Proof.
  destruct a; simpl; auto.
Qed.

Lemma trim_idempotent (s : jsstring) : trim (trim s) = trim s.
Proof.
  unfold trim, trimEnd.
  set (x := trimStart s). set (y := trimStart (rev x)).
  assert (Hy : headSolid (rev y) = true).
  { destruct (trimStart_suffix (rev x)) as [l Hl]. fold y in Hl.
    apply (f_equal (@rev N)) in Hl. rewrite rev_involutive, rev_app_distr in Hl.
    apply headSolid_app with (b := rev l). rewrite <- Hl.
    apply trimStart_headSolid. }
  rewrite (trimStart_id _ Hy), rev_involutive.
  now rewrite (trimStart_id y (trimStart_headSolid _)).
Qed.

Lemma solid_headSolid (p r : jsstring) : solid p = true -> headSolid (p ++ r) = true.
Proof.
  destruct p as [|a p]; [discriminate|].
  unfold solid. intros H. simpl in H. apply andb_true_iff in H as [H _]. exact H.
Qed.

(** Trimming keeps a prefix that has no white space. *)
Lemma startsWith_trim (c p : jsstring) :
  solid p = true -> startsWith c p = true -> startsWith (trim c) p = true.
Proof.
  intros Hp Hc. destruct (startsWith_inv _ _ Hc) as [r ->].
  unfold trim, trimEnd.
  rewrite (trimStart_id _ (solid_headSolid p r Hp)).
  destruct (rev p) as [|z q] eqn:Erev.
  { apply (f_equal (@List.length N)) in Erev. rewrite length_rev in Erev.
    destruct p; [discriminate Hp | discriminate Erev]. }
  assert (Hz : isWhiteSpace z = false).
  { assert (Hin : In z p) by (apply in_rev; rewrite Erev; now left).
    destruct p as [|a p]; [discriminate|].
    unfold solid in Hp. rewrite forallb_forall in Hp.
    apply negb_true_iff. now apply Hp. }
  rewrite rev_app_distr, Erev.
  destruct (trimStart_keeps (rev r) q [] z Hz) as [l' Hl'].
  rewrite app_nil_r in Hl'. rewrite Hl'.
  rewrite rev_app_distr, <- Erev, rev_involutive.
  apply startsWith_app.
Qed.

(** [split] at the first separator. *)
Lemma split_first (sep : N) (a b : jsstring) :
  forallb (fun u => negb (u =? sep)%N) a = true ->
  split sep (a ++ sep :: b) = a :: split sep b.
Proof.
  induction a as [|u a IH]; simpl; intros H.
  - now rewrite N.eqb_refl.
  - apply andb_true_iff in H as [Hu Ha]. apply negb_true_iff in Hu.
    rewrite Hu, (IH Ha). reflexivity.
Qed.

Lemma split_last (sep : N) (a : jsstring) :
  forallb (fun u => negb (u =? sep)%N) a = true -> split sep a = [a].
Proof.
  induction a as [|u a IH]; simpl; intros H; [reflexivity|].
  apply andb_true_iff in H as [Hu Ha]. apply negb_true_iff in Hu.
  rewrite Hu, (IH Ha). reflexivity.
Qed.

Lemma upTo_first (c : N) (a b : jsstring) :
  forallb (fun u => negb (u =? c)%N) a = true -> upTo c (a ++ c :: b) = Some a.
Proof.
  induction a as [|u a IH]; simpl; intros H.
  - now rewrite N.eqb_refl.
  - apply andb_true_iff in H as [Hu Ha]. apply negb_true_iff in Hu.
    rewrite Hu, (IH Ha). reflexivity.
Qed.

End TrimFacts.

(** ** More on the executor *)

Section ExecutorMore.

Import GitExecutor.

Variable repoPath : jsstring.
Variable toLowerCase : jsstring -> jsstring.

Local Abbreviation execute := (GitExecutor.execute repoPath toLowerCase).
Local Abbreviation checkDestructiveOperations :=
  (GitExecutor.checkDestructiveOperations toLowerCase).
Local Abbreviation isDestructiveCommand := (GitExecutor.isDestructiveCommand toLowerCase).

Lemma firstDangerous_none (chars : list jsstring) (c : jsstring) :
  firstDangerous chars c = None -> existsb (includes c) chars = false.
Proof.
  induction chars as [|char chars IH]; simpl; [reflexivity|].
  destruct (includes c char); [discriminate | exact IH].
Qed.

(** The three shapes [execute] can take: the invalid-command result, the
    injection error, or the dry-run result / the single spawn of the trimmed
    command. *)
Lemma execute_cases (c : jsstring) (dryRun autoConfirm : bool) :
  execute c dryRun autoConfirm = Ret invalidCommand
  \/ (exists char, execute c dryRun autoConfirm = Throw (injectionError char))
  \/ (startsWith (trim c) (lit "git") = true
      /\ firstDangerous dangerousChars (trim c) = None
      /\ execute c dryRun autoConfirm =
           bind (Ret (trim c))
             (fun cleaned =>
                let warnings := checkDestructiveOperations cleaned in
                if dryRun then
                  Ret (GitExecutor.dryRunResult toLowerCase cleaned)
                else
                  Call {| spawnCommand := cleaned; cwd := repoPath; timeout := 30000 |}
                    (fun settled =>
                       match settled with
                       | Resolved stdout stderr =>
                           Ret {| success := true; output := Some stdout;
                                  error := Some (orElse (Some stderr) []);
                                  executed := true; warnings := Some warnings;
                                  return_code := Some (CodeNum 0) |}
                       | Rejected e =>
                           Ret {| success := false;
                                  output := Some (orElse (errStdout e) []);
                                  error := Some (orElse (errStderr e)
                                                   (orElse (errMsg e)
                                                      (lit "Command execution failed")));
                                  executed := false; warnings := Some warnings;
                                  return_code :=
                                    Some match errCode e with
                                         | Some (CodeNum 0) | Some (CodeStr []) | None =>
                                             CodeNum 1
                                         | Some c => c
                                         end |}
                       end))).
Proof.
  destruct (startsWith (trim c) (lit "git")) eqn:Hg.
  - rewrite (@execute_accepted repoPath toLowerCase c dryRun autoConfirm Hg
               (@startsWith_git_nonempty c Hg)).
    rewrite (@cleanCommand_git c Hg).
    rewrite <- (@firstDangerous_trim dangerousChars c dangerousChars_solid).
    destruct (firstDangerous dangerousChars (trim c)) as [char|] eqn:Hd.
    + right; left. exists char. reflexivity.
    + right; right. repeat split.
  - left. now apply (@execute_guard repoPath toLowerCase).
Qed.

(** X1: [execute] starts at most one subprocess, and only this one: the
    trimmed command, which starts with [git] and holds none of the forbidden
    strings, in the repository directory with the 30 second timeout, and
    never on a dry run. *)
Theorem execute_spawns_only_clean_git (c : jsstring) (dryRun autoConfirm : bool)
  (world : SpawnRequest -> SpawnOutcome) :
  snd (run world (execute c dryRun autoConfirm)) = []
  \/ (dryRun = false
      /\ startsWith (trim c) (lit "git") = true
      /\ existsb (includes (trim c)) dangerousChars = false
      /\ snd (run world (execute c dryRun autoConfirm))
         = [ {| spawnCommand := trim c; cwd := repoPath; timeout := 30000 |} ]).
Proof.
  destruct (execute_cases c dryRun autoConfirm) as [-> | [[char ->] | (Hg & Hd & ->)]].
  - now left.
  - now left.
  - destruct dryRun; [now left|].
    right. repeat split; auto using firstDangerous_none.
    simpl. destruct (world _); reflexivity.
Qed.

(** X2: in every result [execute] returns, [executed] holds exactly when the
    return code is 0, and then [success] holds, the call was no dry run and a
    subprocess was started; [output] and [error] are always present. *)
Theorem execute_result_invariants (c : jsstring) (dryRun autoConfirm : bool)
  (world : SpawnRequest -> SpawnOutcome) (r : ExecutionResult) :
  fst (run world (execute c dryRun autoConfirm)) = inr r ->
  (executed r = true <-> return_code r = Some (CodeNum 0))
  /\ (executed r = true ->
      success r = true /\ dryRun = false
      /\ snd (run world (execute c dryRun autoConfirm)) <> [])
  /\ (success r = false -> executed r = false)
  /\ output r <> None /\ error r <> None.
Proof.
  destruct (execute_cases c dryRun autoConfirm) as [-> | [[char ->] | (Hg & Hd & ->)]].
  - simpl. intros H. injection H as <-. simpl.
    repeat split; try discriminate; auto.
  - simpl. discriminate.
  - destruct dryRun.
    + simpl. intros H. injection H as <-. simpl.
      repeat split; try discriminate; auto.
    + simpl. destruct (world _) as [stdout stderr | e]; simpl;
        intros H; injection H as <-; simpl.
      * repeat split; try discriminate; auto.
      * repeat split; try discriminate; auto.
        destruct (errCode e) as [[[|n|n] | [|u s]] |]; discriminate.
Qed.

(** X3: white space around the command does not matter: [execute] gives the
    same computation for a command and for its trimmed form. *)
Theorem execute_trim (c : jsstring) (dryRun autoConfirm : bool) :
  execute (trim c) dryRun autoConfirm = execute c dryRun autoConfirm.
Proof.
  destruct (startsWith (trim c) (lit "git")) eqn:Hg.
  - assert (Hg' : startsWith (trim (trim c)) (lit "git") = true)
      by now rewrite trim_idempotent.
    rewrite (@execute_accepted repoPath toLowerCase (trim c) dryRun autoConfirm Hg'
               (@startsWith_git_nonempty _ Hg')).
    rewrite (@execute_accepted repoPath toLowerCase c dryRun autoConfirm Hg
               (@startsWith_git_nonempty _ Hg)).
    unfold cleanCommand. now rewrite trim_idempotent.
  - rewrite (@execute_guard repoPath toLowerCase c dryRun autoConfirm Hg).
    apply (@execute_guard repoPath toLowerCase). now rewrite trim_idempotent.
Qed.

Lemma no_warning_no_match (entries : list (jsstring * jsstring)) (c : jsstring) :
  pushWarnings toLowerCase entries c [] = []
  <-> existsb (fun destructiveCmd => includes (toLowerCase c) destructiveCmd)
        (map fst entries) = false.
Proof.
  rewrite (@pushWarnings_filter toLowerCase). cbn [app].
  induction entries as [|[pattern warning] entries IH]; cbn [filter map fst existsb].
  - now split.
  - destruct (includes (toLowerCase c) pattern); cbn [map orb].
    + split; discriminate.
    + exact IH.
Qed.

(** X4: the two faces of the safety gate agree: [checkDestructiveOperations]
    gives no warning exactly when [isDestructiveCommand] is false, and it
    never gives more than six. *)
Theorem gate_warnings_agree (c : jsstring) :
  (checkDestructiveOperations c = [] <-> isDestructiveCommand c = false)
  /\ (List.length (checkDestructiveOperations c) <= 6)%nat.
Proof.
  split.
  - apply no_warning_no_match.
  - unfold GitExecutor.checkDestructiveOperations.
    rewrite (@pushWarnings_filter toLowerCase). cbn [app].
    rewrite length_map.
    etransitivity; [apply filter_length_le|]. reflexivity.
Qed.

End ExecutorMore.

(** ** More on computations *)

Section ProgFacts.

Variables Req Ans : Type.
Variable world : Req -> Ans.

Lemma run_bind (A B : Type) (p : Prog Req Ans A) (f : A -> Prog Req Ans B) :
  run world (bind p f) =
    match run world p with
    | (inr a, calls) => let (r, more) := run world (f a) in (r, calls ++ more)
    | (inl e, calls) => (inl e, calls)
    end.
Proof.
  induction p as [a | e | q k IH]; simpl.
  - now destruct (run world (f a)).
  - reflexivity.
  - rewrite IH. destruct (run world (k (world q))) as [[e | a] calls]; [reflexivity|].
    now destruct (run world (f a)).
Qed.

Lemma run_tryCatch (A : Type) (p : Prog Req Ans A) (h : exn -> Prog Req Ans A) :
  run world (tryCatch p h) =
    match run world p with
    | (inr a, calls) => (inr a, calls)
    | (inl e, calls) => let (r, more) := run world (h e) in (r, calls ++ more)
    end.
Proof.
  induction p as [a | e | q k IH]; simpl.
  - reflexivity.
  - now destruct (run world (h e)).
  - rewrite IH. destruct (run world (k (world q))) as [[e | a] calls]; [|reflexivity].
    now destruct (run world (h e)).
Qed.

(** A [try] whose handler returns a value never throws. *)
Lemma run_tryCatch_returns (A : Type) (p : Prog Req Ans A) (h : exn -> A) :
  exists a, fst (run world (tryCatch p (fun e => Ret (h e)))) = inr a.
Proof.
  rewrite run_tryCatch.
  destruct (run world p) as [[e | a] calls]; simpl; eauto.
Qed.

End ProgFacts.

(** ** More on the command generator *)

Section EngineMore.

Import AIEngine.

Variable geminiApiKey groqApiKey : option jsstring.
Variable toLowerCase : jsstring -> jsstring.
Variable JSON : Type.
Variable JSON_parse : jsstring -> exn + JSON.
Variable ContextInfo : Type.
Variable buildPrompt : jsstring -> ContextInfo -> jsstring.
Variable HttpResponse : Type.
Variable geminiText groqText : HttpResponse -> exn + option jsstring.

Local Abbreviation scanLine := (AIEngine.scanLine toLowerCase).
Local Abbreviation scanLines := (AIEngine.scanLines toLowerCase).
Local Abbreviation textFallback := (AIEngine.textFallback toLowerCase).
Local Abbreviation parseAIResponse := (AIEngine.parseAIResponse toLowerCase JSON_parse).
Local Abbreviation apiKeyOf := (AIEngine.apiKeyOf geminiApiKey groqApiKey).
Local Abbreviation generateCommand :=
  (AIEngine.generateCommand geminiApiKey groqApiKey toLowerCase JSON_parse
     buildPrompt geminiText groqText).

(** X5: [generateCommand] never throws to its caller, whatever the model
    choice, the keys and the answers of the network are. *)
Theorem generateCommand_never_throws (userInput : jsstring) (context : ContextInfo)
  (modelChoice : jsstring) (world : HttpRequest -> exn + HttpResponse) :
  exists parsed,
    fst (run world (generateCommand userInput context modelChoice)) = inr parsed.
Proof.
  unfold AIEngine.generateCommand.
  apply (run_tryCatch_returns world _ (fun error => Text (generationFailure error))).
Qed.

(** X6: [generateCommand] makes one HTTP request when the key of the resolved
    provider is configured and none otherwise: there is no second attempt.
    The request goes to the endpoint of that provider, carries the prompt
    built from the user text and the context, and holds the key in the URL
    (Gemini) or in the [Authorization] header (Groq). *)
Theorem generateCommand_one_request (userInput : jsstring) (context : ContextInfo)
  (modelChoice : jsstring) (world : HttpRequest -> exn + HttpResponse) :
  List.length (snd (run world (generateCommand userInput context modelChoice)))
  = match resolveModel modelChoice with
    | Model modelInfo => if truthy (apiKeyOf (provider modelInfo)) then 1%nat else 0%nat
    | NotAModel => 0%nat
    end
  /\ forall q,
       In q (snd (run world (generateCommand userInput context modelChoice))) ->
       exists modelInfo,
         resolveModel modelChoice = Model modelInfo
         /\ match provider modelInfo with
            | gemini =>
                url q = lit "https://generativelanguage.googleapis.com/v1beta/models/"
                        ++ model modelInfo ++ lit ":generateContent?key="
                        ++ orElse geminiApiKey []
                /\ body q = GenerateContent (buildPrompt userInput context)
            | groq =>
                url q = lit "https://api.groq.com/openai/v1/chat/completions"
                /\ In (lit "Authorization", lit "Bearer " ++ orElse groqApiKey [])
                     (headers q)
                /\ body q = ChatCompletion (model modelInfo) groqSystemPrompt
                              (buildPrompt userInput context)
            end.
Proof.
  unfold AIEngine.generateCommand.
  destruct (resolveModel modelChoice) as [modelInfo|]; [|split; [reflexivity|intros q []]].
  destruct (provider modelInfo) eqn:Hp; cbn [AIEngine.apiKeyOf].
  - unfold generateWithGemini.
    destruct (truthy geminiApiKey); cbn [negb]; [|split; [reflexivity|intros q []]].
    unfold post. cbn [bind tryCatch run].
    destruct (world _) as [e | response]; cbn [bind tryCatch run snd].
    + split; [reflexivity|]. intros q [<- | []]. exists modelInfo. rewrite Hp. auto.
    + destruct (geminiText response); cbn [bind tryCatch run snd];
        (split; [reflexivity|]); intros q [<- | []]; exists modelInfo; rewrite Hp; auto.
  - unfold generateWithGroq.
    destruct (truthy groqApiKey); cbn [negb]; [|split; [reflexivity|intros q []]].
    unfold post. cbn [bind tryCatch run].
    destruct (world _) as [e | response]; cbn [bind tryCatch run snd].
    + split; [reflexivity|]. intros q [<- | []]. exists modelInfo. rewrite Hp.
      cbn [url headers body]. repeat split. now left.
    + destruct (groqText response); cbn [bind tryCatch run snd];
        (split; [reflexivity|]); intros q [<- | []]; exists modelInfo; rewrite Hp;
        cbn [url headers body]; repeat split; now left.
Qed.

(** X7: when the key is configured and the request fails with the error
    [e], the failure comes back as a value: [command] is [null] and the
    explanation names the provider and shows [e]. *)
Theorem generateCommand_reports_network_error (userInput : jsstring)
  (context : ContextInfo) (modelChoice : jsstring)
  (world : HttpRequest -> exn + HttpResponse) (modelInfo : ModelInfo) (e : exn) :
  resolveModel modelChoice = Model modelInfo ->
  truthy (apiKeyOf (provider modelInfo)) = true ->
  (forall q, world q = inl e) ->
  fst (run world (generateCommand userInput context modelChoice))
  = inr (Text {| command := None;
                 explanation :=
                   lit "Failed to generate command: Error: "
                   ++ match provider modelInfo with
                      | gemini => lit "Gemini"
                      | groq => lit "Groq"
                      end
                   ++ lit " API error: " ++ showError e;
                 warning := Some (lit "Please try again or use manual Git commands") |}).
Proof.
  intros Hres Hkey Hdown. unfold AIEngine.generateCommand. rewrite Hres.
  destruct (provider modelInfo); cbn [AIEngine.apiKeyOf] in Hkey.
  - unfold generateWithGemini, post. rewrite Hkey.
    cbn [negb bind tryCatch]. rewrite fst_run_call, Hdown. reflexivity.
  - unfold generateWithGroq, post. rewrite Hkey.
    cbn [negb bind tryCatch]. rewrite fst_run_call, Hdown. reflexivity.
Qed.


(** *** The parser *)

Lemma matchJsonObject_first (pre inner post : jsstring) :
  forallb (fun u => negb (u =? 123)%N) pre = true ->
  forallb (fun u => negb (u =? 125)%N) inner = true ->
  includes inner (dq ++ lit "command" ++ dq) = true ->
  matchJsonObject (pre ++ 123%N :: inner ++ 125%N :: post)
  = Some (123%N :: inner ++ [125%N]).
Proof.
  intros Hpre Hinner Hkey.
  induction pre as [|u pre IH]; cbn [app matchJsonObject].
  - rewrite N.eqb_refl. unfold jsonObjectAt.
    rewrite (upTo_first 125 inner post Hinner), Hkey. reflexivity.
  - cbn [forallb] in Hpre. apply andb_true_iff in Hpre as [Hu Hpre].
    apply negb_true_iff in Hu. rewrite Hu. now apply IH.
Qed.

(** X9: a flat JSON object that holds the key ["command"] is salvaged from
    the prose around it: when no brace opens before it, no brace closes
    inside it and [JSON.parse] accepts it, [parseAIResponse] returns the
    parsed value as it is, whatever follows the object. *)
Theorem parse_salvages_json_object (pre inner post : jsstring) (v : JSON) :
  forallb (fun u => negb (u =? 123)%N) pre = true ->
  forallb (fun u => negb (u =? 125)%N) inner = true ->
  includes inner (dq ++ lit "command" ++ dq) = true ->
  JSON_parse (123%N :: inner ++ [125%N]) = inr v ->
  parseAIResponse (pre ++ 123%N :: inner ++ 125%N :: post) = Json v.
Proof.
  intros Hpre Hinner Hkey Hparse.
  unfold AIEngine.parseAIResponse, AIEngine.parseBody.
  rewrite (matchJsonObject_first pre inner post Hpre Hinner Hkey).
  unfold AIEngine.tryParse. rewrite Hparse. reflexivity.
Qed.

(** *** The text fallback *)

Lemma command_unset_or_found (lines : list jsstring) (st : AIResponse) :
  command st = None \/ truthy (command st) = true ->
  command (fold_left scanLine lines st) = None
  \/ truthy (command (fold_left scanLine lines st)) = true.
Proof.
  revert st. induction lines as [|line lines IH]; intros st H; cbn [fold_left]; [exact H|].
  apply IH. rewrite (@command_scanLine toLowerCase).
  destruct H as [H | H].
  - rewrite H. apply findCommand_sets.
  - right. now rewrite findCommand_keeps.
Qed.

Lemma startsWith_shorter (c p q : jsstring) :
  startsWith c (p ++ q) = true -> startsWith c p = true.
Proof.
  intros H. destruct (startsWith_inv _ _ H) as [r ->].
  rewrite <- app_assoc. apply startsWith_app.
Qed.

Lemma textFallback_command (response : jsstring) :
  command (textFallback response)
  = match command (scanLines (split 10 response)) with
    | Some (u :: c) =>
        Some (if negb (startsWith (stripBackticks (trim (u :: c))) (lit "git "))
              then lit "git " ++ stripBackticks (trim (u :: c))
              else stripBackticks (trim (u :: c)))
    | other => other
    end.
Proof. reflexivity. Qed.

(** X10: a command that the text fallback returns starts with [git ], and
    the guard of the executor accepts it: [execute] does not answer
    [Invalid Git command] for it. *)
Theorem fallback_command_is_git (response c : jsstring) :
  command (textFallback response) = Some c ->
  startsWith c (lit "git ") = true
  /\ startsWith (trim c) (lit "git") = true
  /\ forall repoPath dryRun autoConfirm,
       GitExecutor.execute repoPath toLowerCase c dryRun autoConfirm
       <> Ret GitExecutor.invalidCommand.
Proof.
  intros Hc.
  assert (Hgit : startsWith c (lit "git ") = true).
  { rewrite textFallback_command in Hc. unfold AIEngine.scanLines in Hc.
    destruct (command_unset_or_found (split 10 response)
                {| command := None; explanation := []; warning := None |}
                (or_introl eq_refl)) as [H | H].
    - rewrite H in Hc. discriminate.
    - destruct (command (fold_left scanLine (split 10 response)
                           {| command := None; explanation := []; warning := None |}))
        as [[|u c0]|]; try discriminate.
      destruct (startsWith (stripBackticks (trim (u :: c0))) (lit "git ")) eqn:E;
        cbn [negb] in Hc; injection Hc as <-; [exact E|].
      exact (startsWith_app (lit "git ") (stripBackticks (trim (u :: c0)))). }
  assert (Htrim : startsWith (trim c) (lit "git") = true).
  { apply startsWith_trim; [reflexivity|].
    apply (startsWith_shorter c (lit "git") (lit " ")). exact Hgit. }
  split; [exact Hgit|]. split; [exact Htrim|].
  intros repoPath dryRun autoConfirm.
  destruct (execute_cases repoPath toLowerCase c dryRun autoConfirm)
    as [H | [[char H] | (_ & _ & H)]].
  - rewrite (@execute_accepted repoPath toLowerCase c dryRun autoConfirm Htrim
               (@startsWith_git_nonempty c Htrim)) in H.
    rewrite (@cleanCommand_git c Htrim) in H.
    destruct (GitExecutor.firstDangerous GitExecutor.dangerousChars c);
      cbn [bind] in H; [discriminate|].
    destruct dryRun; discriminate.
  - rewrite H. discriminate.
  - rewrite H. cbn [bind]. destruct dryRun; discriminate.
Qed.

Lemma command_stays_unset (lines : list jsstring) (st : AIResponse) :
  command st = None ->
  (forall l, In l lines -> findCommand None (trim l) = None) ->
  command (fold_left scanLine lines st) = None.
Proof.
  revert st. induction lines as [|line lines IH]; intros st Hst Hno; cbn [fold_left];
    [exact Hst|].
  apply IH.
  - rewrite (@command_scanLine toLowerCase), Hst. apply Hno. now left.
  - intros l Hl. apply Hno. now right.
Qed.

Lemma explanation_frozen (lines : list jsstring) (st : AIResponse) :
  truthy (command st) = true ->
  explanation (fold_left scanLine lines st) = explanation st.
Proof.
  revert st. induction lines as [|line lines IH]; intros st Hcmd; cbn [fold_left];
    [reflexivity|].
  assert (Hstep : explanation (scanLine st line) = explanation st).
  { unfold AIEngine.scanLine. rewrite (findCommand_keeps _ _ Hcmd), Hcmd.
    cbn [negb]. rewrite andb_false_r. cbn [andb].
    repeat match goal with |- context [if ?b then _ else _] => destruct b end;
      reflexivity. }
  rewrite IH.
  - exact Hstep.
  - rewrite (@command_scanLine toLowerCase). now rewrite findCommand_keeps.
Qed.

(** X11: the first line that holds a command wins, and the answer ends
    there: when no earlier line sets a command and the trimmed [line] starts
    with [git ], the command of the text fallback is that trimmed line
    without its backticks, whatever the later lines are, and the explanation
    is made of the earlier lines only. *)
Theorem first_command_wins (response : jsstring) (before after : list jsstring)
  (line : jsstring) :
  split 10 response = before ++ line :: after ->
  (forall l, In l before -> findCommand None (trim l) = None) ->
  startsWith (trim line) (lit "git ") = true ->
  command (textFallback response)
  = Some (if negb (startsWith (stripBackticks (trim line)) (lit "git "))
          then lit "git " ++ stripBackticks (trim line)
          else stripBackticks (trim line))
  /\ explanation (textFallback response) = trim (explanation (scanLines before)).
Proof.
  intros Hsplit Hbefore Hline.
  unfold AIEngine.textFallback, AIEngine.scanLines. cbn [command explanation].
  rewrite Hsplit, fold_left_app. cbn [fold_left].
  set (st0 := fold_left scanLine before
                {| command := None; explanation := []; warning := None |}).
  assert (H0 : command st0 = None) by (now apply command_stays_unset).
  assert (H1 : command (scanLine st0 line) = Some (trim line)).
  { rewrite (@command_scanLine toLowerCase), H0. unfold findCommand.
    cbn [truthy negb]. now rewrite Hline. }
  assert (Hne : truthy (Some (trim line)) = true).
  { destruct (startsWith_inv _ _ Hline) as [r ->]. reflexivity. }
  assert (Hexp : explanation (scanLine st0 line) = explanation st0).
  { unfold AIEngine.scanLine. rewrite H0. unfold findCommand at 1 2 3 4.
    cbn [truthy negb]. rewrite Hline. rewrite Hne. cbn [negb andb].
    rewrite andb_false_r. cbn [andb].
    repeat match goal with |- context [if ?b then _ else _] => destruct b end;
      reflexivity. }
  rewrite command_sticky by (now rewrite H1).
  rewrite explanation_frozen by (now rewrite H1).
  rewrite H1, Hexp. split; [|reflexivity].
  destruct (trim line) as [|u t] eqn:Et; [discriminate Hne|].
  rewrite <- Et, trim_idempotent. reflexivity.
Qed.

Lemma warning_stays_unset (lines : list jsstring) (st : AIResponse) :
  warning st = None ->
  (forall l, In l lines ->
             isWarningLine (trim l) = false
             /\ includes (toLowerCase (trim l)) (lit "warning") = false) ->
  warning (fold_left scanLine lines st) = None.
Proof.
  revert st. induction lines as [|line lines IH]; intros st Hst Hno; cbn [fold_left];
    [exact Hst|].
  apply IH.
  - destruct (Hno line (or_introl eq_refl)) as [Hw Hweak].
    unfold AIEngine.scanLine. rewrite Hw, Hweak. cbn [andb].
    repeat match goal with |- context [if ?b then _ else _] => destruct b end;
      exact Hst.
  - intros l Hl. apply Hno. now right.
Qed.

(** X12: a line that only mentions the word [warning] becomes the warning
    when it is the first warning of the reply and no marked line ([Warning:],
    [Note:], the glyph) follows it; later lines that mention the word do not
    replace it. *)
Theorem first_mention_of_warning_wins (response : jsstring)
  (before after : list jsstring) (line : jsstring) :
  split 10 response = before ++ line :: after ->
  (forall l, In l before ->
             isWarningLine (trim l) = false
             /\ includes (toLowerCase (trim l)) (lit "warning") = false) ->
  isWarningLine (trim line) = false ->
  includes (toLowerCase (trim line)) (lit "warning") = true ->
  trim line <> [] ->
  (forall l, In l after -> isWarningLine (trim l) = false) ->
  warning (textFallback response) = Some (trim line).
Proof.
  intros Hsplit Hbefore Hplain Hmention Hne Hafter.
  unfold AIEngine.textFallback, AIEngine.scanLines. cbn [warning].
  rewrite Hsplit, fold_left_app. cbn [fold_left].
  set (st0 := fold_left scanLine before
                {| command := None; explanation := []; warning := None |}).
  assert (H0 : warning st0 = None) by (now apply warning_stays_unset).
  assert (H1 : warning (scanLine st0 line) = Some (trim line)).
  { unfold AIEngine.scanLine. rewrite Hplain, Hmention, H0. reflexivity. }
  rewrite (@warning_kept toLowerCase after (scanLine st0 line)).
  - exact H1.
  - rewrite H1. destruct (trim line); [contradiction | reflexivity].
  - exact Hafter.
Qed.

End EngineMore.

(** ** The model setting *)

Section ModelChoiceFacts.

Import AIEngine Extension.

(** X13: every value of the [defaultModel] setting that is not the name of
    a property of [Object.prototype] selects a registered model: the four
    documented values select their own model and any other value falls back
    to the first model, Gemini 2.0 Flash. *)
Theorem getModelChoice_resolves (defaultModel : jsstring) :
  existsb (eqb defaultModel) inheritedKeys = false ->
  exists modelChoice,
    getModelChoice defaultModel = Key modelChoice
    /\ resolveModel modelChoice
       = Model (if eqb (lit "gemini") defaultModel then
                  {| name := lit "Gemini 2.0 Flash"; provider := gemini;
                     model := lit "gemini-2.0-flash" |}
                else if eqb (lit "groq-llama-3.1") defaultModel then
                  {| name := lit "Llama 3.1 8B Instant"; provider := groq;
                     model := lit "llama-3.1-8b-instant" |}
                else if eqb (lit "groq-llama-3.3") defaultModel then
                  {| name := lit "Llama 3.3 70B Versatile"; provider := groq;
                     model := lit "llama-3.3-70b-versatile" |}
                else if eqb (lit "deepseek") defaultModel then
                  {| name := lit "DeepSeek R1 Distill Llama 70B"; provider := groq;
                     model := lit "deepseek-r1-distill-llama-70b" |}
                else
                  {| name := lit "Gemini 2.0 Flash"; provider := gemini;
                     model := lit "gemini-2.0-flash" |}).
Proof.
  intros Hown. unfold getModelChoice, modelMap. cbn [find fst].
  destruct (eqb (lit "gemini") defaultModel); [eexists; split; reflexivity|].
  destruct (eqb (lit "groq-llama-3.1") defaultModel); [eexists; split; reflexivity|].
  destruct (eqb (lit "groq-llama-3.3") defaultModel); [eexists; split; reflexivity|].
  destruct (eqb (lit "deepseek") defaultModel); [eexists; split; reflexivity|].
  rewrite Hown. eexists; split; reflexivity.
Qed.

End ModelChoiceFacts.

(** ** More on the repository inspector *)

Section AnalyzerMore.

Import ContextAnalyzer.

Variable toISOString : jsstring -> option jsstring.
Variable world : jsstring -> exn + jsstring.

Local Abbreviation analyzeContext := (ContextAnalyzer.analyzeContext toISOString).
Local Abbreviation getLastCommitInfo := (ContextAnalyzer.getLastCommitInfo toISOString).

Lemma run_execSync (q : jsstring) : run world (execSync q) = (world q, [q]).
Proof.
  unfold execSync. simpl. destruct (world q); reflexivity.
Qed.

Lemma isGitRepo_run :
  run world isGitRepo
  = (inr match world (lit "git status") with
         | inr _ => true
         | inl _ => false
         end,
     [lit "git status"]).
Proof.
  unfold isGitRepo. rewrite run_tryCatch, run_bind, run_execSync.
  destruct (world (lit "git status")); reflexivity.
Qed.

Lemma getCurrentBranch_run :
  exists branch,
    run world getCurrentBranch = (inr branch, [lit "git rev-parse --abbrev-ref HEAD"])
    /\ branch <> [].
Proof.
  unfold getCurrentBranch. rewrite run_tryCatch, run_bind, run_execSync.
  destruct (world (lit "git rev-parse --abbrev-ref HEAD")) as [e | out].
  - eexists. split; [reflexivity | discriminate].
  - cbv beta. cbn [run fst snd app].
    eexists. split; [reflexivity|].
    destruct (trim out); discriminate.
Qed.

Lemma getRemoteStatus_run :
  exists rs,
    run world getRemoteStatus = (inr rs, [lit "git remote show origin"])
    /\ remoteConsistent rs.
Proof.
  unfold getRemoteStatus. rewrite run_tryCatch, run_bind, run_execSync.
  destruct (world (lit "git remote show origin")) as [e | origin].
  - eexists. split; [reflexivity|]. cbv. auto.
  - cbv beta zeta. cbn [run fst snd app].
    eexists. split; [reflexivity|].
    unfold remoteConsistent. cbn [has_remote ahead behind up_to_date].
    do 3 eexists. repeat split.
    + destruct (matchCount (lit "local out of date by ") origin); [|reflexivity].
      destruct (matchCount (lit "branches out of date by ") origin); discriminate.
    + destruct (matchCount (lit "local out of date by ") origin); [discriminate|].
      destruct (matchCount (lit "branches out of date by ") origin);
        [discriminate | reflexivity].
Qed.

Lemma getLastCommitInfo_run :
  exists lastCommit, run world getLastCommitInfo = (inr lastCommit, [logCommand]).
Proof.
  unfold ContextAnalyzer.getLastCommitInfo.
  rewrite run_tryCatch, run_bind, run_execSync. fold logCommand.
  destruct (world logCommand) as [e | out].
  - eexists. reflexivity.
  - cbv beta.
    destruct (split 124 out) as [|c0 [|c1 [|c2 [|c3 rest]]]]; try (eexists; reflexivity).
    destruct (toISOString (trim c3)); eexists; reflexivity.
Qed.

Ltac unguarded_query :=
  rewrite run_bind, run_execSync; cbv beta iota zeta;
  match goal with
  | |- context [world ?q] =>
      let e := fresh "e" in
      let out := fresh "out" in
      let H := fresh "Hq" in
      destruct (world q) as [e | out] eqn:H;
      [ right; left; exists q, e;
        split; [unfold unguardedQueries; simpl; tauto | split; [exact H | reflexivity]]
      | ]
  end.

(** The three outcomes of [analyzeContext]. *)
Lemma analyzeContext_outcomes :
  (exists e, world (lit "git status") = inl e
             /\ run world analyzeContext
                = (inr (ContextError (lit "Not a Git repository")), [lit "git status"]))
  \/ (exists q e, In q unguardedQueries
                  /\ world q = inl e
                  /\ fst (run world analyzeContext)
                     = inr (ContextError
                              (lit "Failed to analyze context: " ++ showError e)))
  \/ (exists porcelain staged unstaged untracked ref stashes branch rs lastCommit,
        world (lit "git status --porcelain") = inr porcelain
        /\ world (lit "git diff --cached --name-only") = inr staged
        /\ world (lit "git diff --name-only") = inr unstaged
        /\ world (lit "git ls-files --others --exclude-standard") = inr untracked
        /\ world (lit "git symbolic-ref -q HEAD") = inr ref
        /\ world (lit "git stash list") = inr stashes
        /\ branch <> [] /\ remoteConsistent rs
        /\ run world analyzeContext
           = (inr (Analyzed
                     {| branch := branch; is_dirty := nonEmpty porcelain;
                        staged_files := countLines staged;
                        unstaged_files := countLines unstaged;
                        untracked_files := countLines untracked;
                        is_detached := nonEmpty ref; remote_status := rs;
                        last_commit := lastCommit;
                        stash_count := countLines stashes |}),
              [ lit "git status"; lit "git rev-parse --abbrev-ref HEAD";
                lit "git status --porcelain"; lit "git diff --cached --name-only";
                lit "git diff --name-only";
                lit "git ls-files --others --exclude-standard";
                lit "git symbolic-ref -q HEAD"; lit "git remote show origin";
                logCommand; lit "git stash list" ])).
Proof.
  unfold ContextAnalyzer.analyzeContext. rewrite run_bind, isGitRepo_run.
  destruct (world (lit "git status")) as [e0 | o0]; [left; exists e0; split; reflexivity|].
  cbv beta iota. cbn [negb]. rewrite run_tryCatch.
  destruct getCurrentBranch_run as (branch & Hb & Hbne).
  rewrite run_bind, Hb. cbv beta iota.
  unguarded_query. unguarded_query. unguarded_query. unguarded_query. unguarded_query.
  destruct getRemoteStatus_run as (rs & Hrs & Hcons).
  rewrite run_bind, Hrs. cbv beta iota.
  destruct getLastCommitInfo_run as (lastCommit & Hlc).
  fold getLastCommitInfo. rewrite run_bind, Hlc. cbv beta iota.
  unguarded_query.
  right; right. exists out, out0, out1, out2, out3, out4, branch, rs, lastCommit.
  repeat (split; [first [assumption | reflexivity]|]). reflexivity.
Qed.

(** X14: outside a repository, where [git status] fails, [analyzeContext]
    answers [Not a Git repository] after that single query; no other command
    is run. *)
Theorem analyzeContext_not_a_repo (e : exn) :
  world (lit "git status") = inl e ->
  run world analyzeContext
  = (inr (ContextError (lit "Not a Git repository")), [lit "git status"]).
Proof.
  intros H. unfold ContextAnalyzer.analyzeContext.
  rewrite run_bind, isGitRepo_run, H. reflexivity.
Qed.

(** X15: [analyzeContext] never throws: whatever the queries answer, it
    returns a snapshot or an error value. *)
Theorem analyzeContext_never_throws :
  exists context, fst (run world analyzeContext) = inr context.
Proof.
  destruct analyzeContext_outcomes
    as [(e & _ & H) | [(q & e & _ & _ & H) | (? & ? & ? & ? & ? & ? & ? & ? & ? & H)]].
  - rewrite H. eexists; reflexivity.
  - rewrite H. eexists; reflexivity.
  - decompose [and] H. match goal with Hr : run _ _ = _ |- _ => rewrite Hr end.
    eexists; reflexivity.
Qed.

(** X16: the branch, remote and last-commit queries cannot abort the
    snapshot: when [git status] and the six direct queries succeed,
    [analyzeContext] returns the nine fields, computed from the outputs of
    those queries, after running the ten commands in order, whether the
    three guarded queries succeed or fail. *)
Theorem analyzeContext_survives_guarded_failures
  (status porcelain staged unstaged untracked ref stashes : jsstring) :
  world (lit "git status") = inr status ->
  world (lit "git status --porcelain") = inr porcelain ->
  world (lit "git diff --cached --name-only") = inr staged ->
  world (lit "git diff --name-only") = inr unstaged ->
  world (lit "git ls-files --others --exclude-standard") = inr untracked ->
  world (lit "git symbolic-ref -q HEAD") = inr ref ->
  world (lit "git stash list") = inr stashes ->
  exists branch rs lastCommit,
    run world analyzeContext
    = (inr (Analyzed
              {| branch := branch; is_dirty := nonEmpty porcelain;
                 staged_files := countLines staged;
                 unstaged_files := countLines unstaged;
                 untracked_files := countLines untracked;
                 is_detached := nonEmpty ref; remote_status := rs;
                 last_commit := lastCommit;
                 stash_count := countLines stashes |}),
       [ lit "git status"; lit "git rev-parse --abbrev-ref HEAD";
         lit "git status --porcelain"; lit "git diff --cached --name-only";
         lit "git diff --name-only"; lit "git ls-files --others --exclude-standard";
         lit "git symbolic-ref -q HEAD"; lit "git remote show origin";
         logCommand; lit "git stash list" ]).
Proof.
  intros H0 H1 H2 H3 H4 H5 H6.
  destruct analyzeContext_outcomes
    as [(e & He & _) | [(q & e & Hin & He & _) | H]].
  - congruence.
  - unfold unguardedQueries in Hin. simpl in Hin.
    decompose [or] Hin; subst; congruence || contradiction.
  - destruct H as (p' & s' & u' & t' & r' & h' & branch & rs & lastCommit
                   & E1 & E2 & E3 & E4 & E5 & E6 & _ & _ & Hrun).
    exists branch, rs, lastCommit.
    rewrite Hrun. congruence.
Qed.

(** X17: every snapshot [analyzeContext] returns has a non-empty branch
    name, counts that are not negative, and a remote status that is either
    complete or [has_remote = false] alone. *)
Theorem analyzeContext_snapshot_invariants (s : Snapshot) :
  fst (run world analyzeContext) = inr (Analyzed s) ->
  branch s <> []
  /\ (0 <= staged_files s)%Z /\ (0 <= unstaged_files s)%Z
  /\ (0 <= untracked_files s)%Z /\ (0 <= stash_count s)%Z
  /\ remoteConsistent (remote_status s).
Proof.
  intros Hs.
  destruct analyzeContext_outcomes
    as [(e & _ & H) | [(q & e & _ & _ & H) | H]].
  - rewrite H in Hs. discriminate.
  - rewrite H in Hs. discriminate.
  - destruct H as (p' & s' & u' & t' & r' & h' & b & rs & lastCommit
                   & _ & _ & _ & _ & _ & _ & Hb & Hrs & Hrun).
    rewrite Hrun in Hs. injection Hs as <-. cbn.
    rewrite !countLines_separators.
    repeat split; auto; lia.
Qed.

(** X18: an error of [analyzeContext] has one of two causes: [git status]
    failed, and the message is [Not a Git repository], or one of the six
    direct queries failed, and the message shows that failure.  A failure of
    the branch, remote or last-commit query is never the cause. *)
Theorem analyzeContext_error_cause (msg : jsstring) :
  fst (run world analyzeContext) = inr (ContextError msg) ->
  (msg = lit "Not a Git repository" /\ exists e, world (lit "git status") = inl e)
  \/ exists q e, In q unguardedQueries /\ world q = inl e
                 /\ msg = lit "Failed to analyze context: " ++ showError e.
Proof.
  intros Hmsg.
  destruct analyzeContext_outcomes
    as [(e & He & H) | [(q & e & Hin & He & H) | H]].
  - rewrite H in Hmsg. injection Hmsg as <-. left. eauto.
  - rewrite H in Hmsg. injection Hmsg as <-. right. eauto.
  - destruct H as (? & ? & ? & ? & ? & ? & ? & ? & ? & H).
    decompose [and] H. match goal with Hr : run _ _ = _ |- _ => rewrite Hr in Hmsg end.
    discriminate.
Qed.

(** *** The last commit *)

Lemma last_commit_run (out : jsstring) :
  world logCommand = inr out ->
  run world getLastCommitInfo
  = (inr match split 124 out with
         | c0 :: c1 :: c2 :: c3 :: _ =>
             match toISOString (trim c3) with
             | Some iso => Some {| sha := trim c0; message := trim c1;
                                   author := trim c2; date := iso |}
             | None => None
             end
         | _ => None
         end,
     [logCommand]).
Proof.
  intros H. unfold ContextAnalyzer.getLastCommitInfo.
  rewrite run_tryCatch, run_bind, run_execSync. fold logCommand. rewrite H.
  cbv beta.
  destruct (split 124 out) as [|c0 [|c1 [|c2 [|c3 rest]]]]; try reflexivity.
  destruct (toISOString (trim c3)); reflexivity.
Qed.

(** X19: when [git log] prints four fields separated by bars and the fourth
    is a date, [getLastCommitInfo] returns the four fields trimmed, the date
    in ISO form. *)
Theorem getLastCommitInfo_fields (f0 f1 f2 f3 iso : jsstring) :
  world logCommand = inr (f0 ++ 124%N :: f1 ++ 124%N :: f2 ++ 124%N :: f3) ->
  without 124 f0 = true -> without 124 f1 = true ->
  without 124 f2 = true -> without 124 f3 = true ->
  toISOString (trim f3) = Some iso ->
  fst (run world getLastCommitInfo)
  = inr (Some {| sha := trim f0; message := trim f1; author := trim f2; date := iso |}).
Proof.
  intros Hout H0 H1 H2 H3 Hiso.
  rewrite (@last_commit_run _ Hout).
  rewrite (@split_first 124 f0 _ H0), (@split_first 124 f1 _ H1),
    (@split_first 124 f2 _ H2), (@split_last 124 f3 H3).
  cbn [fst]. now rewrite Hiso.
Qed.

(** X20: a bar inside the subject shifts the fields: the date is then read
    from the author's name, and when that is no date the last commit is
    reported as the empty object. *)
Theorem getLastCommitInfo_bar_in_subject (f0 s1 s2 f2 f3 : jsstring) :
  world logCommand
  = inr (f0 ++ 124%N :: s1 ++ 124%N :: s2 ++ 124%N :: f2 ++ 124%N :: f3) ->
  without 124 f0 = true -> without 124 s1 = true ->
  without 124 s2 = true -> without 124 f2 = true ->
  toISOString (trim f2) = None ->
  fst (run world getLastCommitInfo) = inr None.
Proof.
  intros Hout H0 H1 H2 H3 Hiso.
  rewrite (@last_commit_run _ Hout).
  rewrite (@split_first 124 f0 _ H0), (@split_first 124 s1 _ H1),
    (@split_first 124 s2 _ H2), (@split_first 124 f2 _ H3).
  cbn [fst]. now rewrite Hiso.
Qed.

End AnalyzerMore.

(** ** Quoted commands and the model registry *)

Section FragmentFacts.

Import AIEngine.

Variable toLowerCase : jsstring -> jsstring.

Local Abbreviation scanLine := (AIEngine.scanLine toLowerCase).
Local Abbreviation textFallback := (AIEngine.textFallback toLowerCase).

Lemma matchGitFragment_first (pre x post : jsstring) :
  without 96 pre = true -> without 96 x = true -> x <> [] ->
  matchGitFragment (pre ++ 96%N :: lit "git " ++ x ++ 96%N :: post)
  = Some (lit "git " ++ x).
Proof.
  intros Hpre Hx Hne.
  induction pre as [|u pre IH]; cbn [app matchGitFragment].
  - rewrite N.eqb_refl. unfold gitFragmentAt.
    rewrite (startsWith_app (lit "git ") (x ++ 96%N :: post)).
    change (skipn 4 (lit "git " ++ x ++ 96%N :: post)) with (x ++ 96%N :: post).
    rewrite (@upTo_first 96 x post Hx).
    destruct x; [contradiction | reflexivity].
  - unfold without in Hpre. cbn [forallb] in Hpre.
    apply andb_true_iff in Hpre as [Hu Hpre].
    apply negb_true_iff in Hu. rewrite Hu. now apply IH.
Qed.

Lemma command_found (response : jsstring) (before after : list jsstring)
  (line : jsstring) (u : N) (c : jsstring) :
  split 10 response = before ++ line :: after ->
  (forall l, In l before -> findCommand None (trim l) = None) ->
  findCommand None (trim line) = Some (u :: c) ->
  command (textFallback response)
  = Some (if negb (startsWith (stripBackticks (trim (u :: c))) (lit "git "))
          then lit "git " ++ stripBackticks (trim (u :: c))
          else stripBackticks (trim (u :: c))).
Proof.
  intros Hsplit Hbefore Hline.
  rewrite (@textFallback_command toLowerCase). unfold AIEngine.scanLines.
  rewrite Hsplit, fold_left_app. cbn [fold_left].
  set (st0 := fold_left scanLine before
                {| command := None; explanation := []; warning := None |}).
  assert (H0 : command st0 = None)
    by (now apply (@command_stays_unset toLowerCase)).
  assert (H1 : command (scanLine st0 line) = Some (u :: c))
    by (now rewrite (@command_scanLine toLowerCase), H0).
  rewrite (@command_sticky toLowerCase) by (now rewrite H1).
  now rewrite H1.
Qed.

(** The command of a line that quotes [`git x`], before any reading of the
    clean-up. *)
Lemma quoted_command_raw (response : jsstring)
  (before after : list jsstring) (line pre x post : jsstring) :
  split 10 response = before ++ line :: after ->
  (forall l, In l before -> findCommand None (trim l) = None) ->
  trim line = pre ++ 96%N :: lit "git " ++ x ++ 96%N :: post ->
  without 96 pre = true -> without 96 x = true -> x <> [] ->
  startsWith (trim line) (lit "git ") = false ->
  command (textFallback response)
  = Some (if negb (startsWith (stripBackticks (trim (lit "git " ++ x))) (lit "git "))
          then lit "git " ++ stripBackticks (trim (lit "git " ++ x))
          else stripBackticks (trim (lit "git " ++ x))).
Proof.
  intros Hsplit Hbefore Hline Hpre Hx Hne Hstart.
  apply (@command_found response before after line 103%N
           (lit "it " ++ x) Hsplit Hbefore).
  unfold findCommand. cbn [truthy negb]. rewrite Hstart, Hline.
  change (96%N :: lit "git " ++ x ++ 96%N :: post)
    with ((96%N :: lit "git ") ++ x ++ 96%N :: post).
  rewrite (includes_app pre (96%N :: lit "git ") (x ++ 96%N :: post)).
  change ((96%N :: lit "git ") ++ x ++ 96%N :: post)
    with (96%N :: lit "git " ++ x ++ 96%N :: post).
  now rewrite (@matchGitFragment_first pre x post Hpre Hx Hne).
Qed.

Lemma trimStart_app_keep (a b : jsstring) :
  trimStart a <> [] -> trimStart (a ++ b) = trimStart a ++ b.
Proof.
  induction a as [|u a IH]; simpl; [contradiction|].
  destruct (isWhiteSpace u); [exact IH | reflexivity].
Qed.

Lemma trimStart_app_drop (a b : jsstring) :
  trimStart a = [] -> trimStart (a ++ b) = trimStart b.
Proof.
  induction a as [|u a IH]; simpl; [reflexivity|].
  destruct (isWhiteSpace u); [exact IH | discriminate].
Qed.

(** Trimming [git x]: the trailing white space of [x] goes, and with a
    blank [x] the space after [git] goes too. *)
Lemma trim_git_fragment (x : jsstring) :
  trim (lit "git " ++ x)
  = match trimEnd x with
    | [] => lit "git"
    | _ :: _ => lit "git " ++ trimEnd x
    end.
Proof.
  unfold trim.
  change (trimStart (lit "git " ++ x)) with (lit "git " ++ x).
  unfold trimEnd. rewrite rev_app_distr.
  destruct (trimStart (rev x)) as [|v y] eqn:E.
  - rewrite (@trimStart_app_drop (rev x) (rev (lit "git ")) E). reflexivity.
  - rewrite (@trimStart_app_keep (rev x) (rev (lit "git ")))
      by (rewrite E; discriminate).
    rewrite E, rev_app_distr, rev_involutive.
    destruct (rev (v :: y)) eqn:Er; [|reflexivity].
    apply (f_equal (@List.length N)) in Er. rewrite length_rev in Er. discriminate.
Qed.

Lemma trimEnd_without (c : N) (x : jsstring) :
  without c x = true -> without c (trimEnd x) = true.
Proof.
  unfold without, trimEnd. rewrite !forallb_forall.
  intros H u Hu. apply H. apply in_rev in Hu.
  destruct (trimStart_suffix (rev x)) as [l Hl].
  apply in_rev. rewrite Hl. apply in_or_app. now right.
Qed.

Lemma stripBackticks_id (s : jsstring) :
  without 96 s = true -> stripBackticks s = s.
Proof.
  unfold without. rewrite forallb_forall. intros H.
  unfold stripBackticks.
  assert (Hhead : match s with
                  | u :: s' => if (u =? 96)%N then s' else s
                  | [] => s
                  end = s).
  { destruct s as [|u s']; [reflexivity|].
    specialize (H u (or_introl eq_refl)). apply negb_true_iff in H. now rewrite H. }
  rewrite Hhead.
  destruct (rev s) as [|v r] eqn:Er; [reflexivity|].
  assert (Hv : In v s) by (apply in_rev; rewrite Er; now left).
  specialize (H v Hv). apply negb_true_iff in H. now rewrite H.
Qed.

(** X21: a command quoted in backticks inside a sentence is extracted: when
    no earlier line sets a command and the trimmed [line], which does not
    itself start with [git ], holds [`git x`] with no backtick before it and
    none in [x], the command of the text fallback is [git ] followed by [x]
    without its trailing white space, whatever surrounds the quotation and
    whatever the later lines are.  When [x] is blank the trimmed fragment is
    [git] alone, which the clean-up prefixes again: the command is
    [git git]. *)
Theorem quoted_command_is_extracted (response : jsstring)
  (before after : list jsstring) (line pre x post : jsstring) :
  split 10 response = before ++ line :: after ->
  (forall l, In l before -> findCommand None (trim l) = None) ->
  trim line = pre ++ 96%N :: lit "git " ++ x ++ 96%N :: post ->
  without 96 pre = true -> without 96 x = true -> x <> [] ->
  startsWith (trim line) (lit "git ") = false ->
  command (textFallback response)
  = Some match trimEnd x with
         | [] => lit "git git"
         | _ :: _ => lit "git " ++ trimEnd x
         end.
Proof.
  intros Hsplit Hbefore Hline Hpre Hx Hne Hstart.
  rewrite (@quoted_command_raw response before after line pre x post
             Hsplit Hbefore Hline Hpre Hx Hne Hstart).
  rewrite trim_git_fragment.
  pose proof (@trimEnd_without 96 x Hx) as Ht.
  destruct (trimEnd x) as [|v t] eqn:E.
  - reflexivity.
  - rewrite stripBackticks_id.
    + rewrite (startsWith_app (lit "git ") (v :: t)). reflexivity.
    + unfold without in *. rewrite forallb_app, Ht. reflexivity.
Qed.

End FragmentFacts.

Section RegistryFacts.

Import AIEngine.

Variable geminiApiKey groqApiKey : option jsstring.
Variable toLowerCase : jsstring -> jsstring.
Variable JSON : Type.
Variable JSON_parse : jsstring -> exn + JSON.
Variable ContextInfo : Type.
Variable buildPrompt : jsstring -> ContextInfo -> jsstring.
Variable HttpResponse : Type.
Variable geminiText groqText : HttpResponse -> exn + option jsstring.

Local Abbreviation generateCommand :=
  (AIEngine.generateCommand geminiApiKey groqApiKey toLowerCase JSON_parse
     buildPrompt geminiText groqText).

Lemma eqb_eq (a b : jsstring) : eqb a b = true -> a = b.
Proof.
  revert b. induction a as [|u a IH]; intros [|v b] H; try discriminate; [reflexivity|].
  cbn [eqb] in H. apply andb_true_iff in H as [Hu Ha].
  apply N.eqb_eq in Hu. subst v. now rewrite (IH b Ha).
Qed.

Lemma inherited_is_no_model (modelChoice : jsstring) :
  existsb (eqb modelChoice) inheritedKeys = true ->
  resolveModel modelChoice = NotAModel.
Proof.
  intros H. apply existsb_exists in H as (key & Hin & Heq).
  apply eqb_eq in Heq. subst key.
  unfold inheritedKeys in Hin. cbn [In] in Hin.
  decompose [or] Hin; subst; try contradiction; reflexivity.
Qed.

(** X22: a model choice resolves to one of the four registered models, the
    first one when the choice is unknown, unless it names a property that
    the registry object inherits from [Object.prototype]; then it resolves
    to no model. *)
Theorem resolveModel_registered (modelChoice : jsstring) :
  (existsb (eqb modelChoice) inheritedKeys = false
   /\ exists modelInfo,
        resolveModel modelChoice = Model modelInfo
        /\ In modelInfo (map snd availableModels)
        /\ (find (fun entry => eqb (fst entry) modelChoice) availableModels = None ->
            modelInfo = defaultModel))
  \/ (existsb (eqb modelChoice) inheritedKeys = true
      /\ resolveModel modelChoice = NotAModel).
Proof.
  destruct (existsb (eqb modelChoice) inheritedKeys) eqn:Hin.
  - right. split; [reflexivity|]. now apply inherited_is_no_model.
  - left. split; [reflexivity|]. unfold resolveModel. rewrite Hin.
    destruct (find (fun entry => eqb (fst entry) modelChoice) availableModels)
      as [[key modelInfo]|] eqn:Hfind.
    + exists modelInfo. split; [reflexivity|]. split; [|discriminate].
      apply find_some in Hfind as [Hentry _].
      apply (in_map snd) in Hentry. exact Hentry.
    + exists defaultModel. split; [reflexivity|]. split; [|reflexivity].
      cbn. auto.
Qed.

(** X23: for a model choice such as [constructor] or [toString], which
    names an inherited property of the registry object, [generateCommand]
    makes no request, whatever keys are configured, and returns [command =
    null] with the explanation [Unknown provider: undefined]. *)
Theorem generateCommand_inherited_choice (userInput : jsstring) (context : ContextInfo)
  (modelChoice : jsstring) :
  existsb (eqb modelChoice) inheritedKeys = true ->
  generateCommand userInput context modelChoice
  = Ret (Text {| command := None;
                 explanation :=
                   lit "Failed to generate command: Error: Unknown provider: undefined";
                 warning := Some (lit "Please try again or use manual Git commands") |}).
Proof.
  intros H. unfold AIEngine.generateCommand.
  now rewrite (inherited_is_no_model modelChoice H).
Qed.

End RegistryFacts.

(** ** The further properties at sample inputs *)

(** [git status], run for real on a subprocess layer that succeeds. *)
Lemma execute_result_invariants_at_status :
  fst (run Scenarios.succeeds
         (GitExecutor.execute Samples.repoPath asciiToLowerCase (lit "git status")
            false false))
  = inr {| GitExecutor.success := true;
           GitExecutor.output := Some (lit "ok" ++ Samples.newline);
           GitExecutor.error := Some [];
           GitExecutor.executed := true;
           GitExecutor.warnings := Some [];
           GitExecutor.return_code := Some (GitExecutor.CodeNum 0) |}
  /\ snd (run Scenarios.succeeds
            (GitExecutor.execute Samples.repoPath asciiToLowerCase (lit "git status")
               false false)) <> [].
Proof.
  split; [reflexivity|].
  exact (proj2 (proj2 (proj1 (proj2
           (@execute_result_invariants Samples.repoPath asciiToLowerCase
              (lit "git status") false false Scenarios.succeeds _ eq_refl))
           eq_refl))).
Defined.

(** Model [1] with a Gemini key, and a provider that cannot be reached. *)
Lemma generateCommand_reports_network_error_at_gemini :
  AIEngine.resolveModel (lit "1") = AIEngine.Model AIEngine.defaultModel
  /\ truthy (AIEngine.apiKeyOf (Some (lit "key")) None
               (AIEngine.provider AIEngine.defaultModel)) = true
  /\ (forall q, Scenarios.unreachable q
                = inl (Err (lit "AxiosError") (lit "connect ECONNREFUSED")))
  /\ fst (run Scenarios.unreachable
            (AIEngine.generateCommand (Some (lit "key")) None asciiToLowerCase
               Samples.rejectText Samples.promptOf Samples.replyText Samples.replyText
               (lit "undo the last commit") Samples.noContext (lit "1")))
     = inr (AIEngine.Text
              {| AIEngine.command := None;
                 AIEngine.explanation :=
                   lit "Failed to generate command: Error: Gemini API error: AxiosError: connect ECONNREFUSED";
                 AIEngine.warning :=
                   Some (lit "Please try again or use manual Git commands") |}).
Proof.
  split; [reflexivity|]. split; [reflexivity|]. split; [intros q; reflexivity|].
  exact (@generateCommand_reports_network_error (Some (lit "key")) None asciiToLowerCase
           Empty_set Samples.rejectText ContextAnalyzer.Context Samples.promptOf
           jsstring Samples.replyText Samples.replyText
           (lit "undo the last commit") Samples.noContext (lit "1")
           Scenarios.unreachable AIEngine.defaultModel
           (Err (lit "AxiosError") (lit "connect ECONNREFUSED"))
           eq_refl eq_refl (fun q => eq_refl)).
Defined.


(** A JSON object between a sentence and a closing remark. *)
Lemma parse_salvages_json_object_at_status :
  without 123 (lit "Sure, here it is: ") = true
  /\ without 125 Scenarios.statusFields = true
  /\ includes Scenarios.statusFields (AIEngine.dq ++ lit "command" ++ AIEngine.dq) = true
  /\ Scenarios.parseStatus (123%N :: Scenarios.statusFields ++ [125%N])
     = inr Scenarios.statusValue
  /\ AIEngine.parseAIResponse asciiToLowerCase Scenarios.parseStatus
       (lit "Sure, here it is: " ++ 123%N :: Scenarios.statusFields
        ++ 125%N :: lit " (see {docs})")
     = AIEngine.Json Scenarios.statusValue.
Proof.
  split; [reflexivity|]. split; [reflexivity|]. split; [reflexivity|].
  split; [reflexivity|].
  exact (@parse_salvages_json_object asciiToLowerCase AIEngine.AIResponse
           Scenarios.parseStatus (lit "Sure, here it is: ") Scenarios.statusFields
           (lit " (see {docs})") Scenarios.statusValue
           eq_refl eq_refl eq_refl eq_refl).
Defined.

(** The reply [git status]. *)
Lemma fallback_command_is_git_at_status :
  AIEngine.command (AIEngine.textFallback asciiToLowerCase (lit "git status"))
  = Some (lit "git status")
  /\ startsWith (lit "git status") (lit "git ") = true
  /\ startsWith (trim (lit "git status")) (lit "git") = true
  /\ forall repoPath dryRun autoConfirm,
       GitExecutor.execute repoPath asciiToLowerCase (lit "git status") dryRun autoConfirm
       <> Ret GitExecutor.invalidCommand.
Proof.
  split; [reflexivity|].
  exact (@fallback_command_is_git asciiToLowerCase (lit "git status")
           (lit "git status") eq_refl).
Defined.

(** A sentence, a command and a second command. *)
Lemma first_command_wins_at_stash :
  split 10 (lit "Run this" ++ Samples.newline ++ lit "git stash" ++ Samples.newline
            ++ lit "git stash pop")
  = [lit "Run this"] ++ lit "git stash" :: [lit "git stash pop"]
  /\ (forall l, In l [lit "Run this"] -> AIEngine.findCommand None (trim l) = None)
  /\ startsWith (trim (lit "git stash")) (lit "git ") = true
  /\ AIEngine.command
       (AIEngine.textFallback asciiToLowerCase
          (lit "Run this" ++ Samples.newline ++ lit "git stash" ++ Samples.newline
           ++ lit "git stash pop"))
     = Some (lit "git stash")
  /\ AIEngine.explanation
       (AIEngine.textFallback asciiToLowerCase
          (lit "Run this" ++ Samples.newline ++ lit "git stash" ++ Samples.newline
           ++ lit "git stash pop"))
     = lit "Run this".
Proof.
  assert (Hbefore : forall l, In l [lit "Run this"] ->
                              AIEngine.findCommand None (trim l) = None).
  { intros l [<- | []]. reflexivity. }
  split; [reflexivity|]. split; [exact Hbefore|]. split; [reflexivity|].
  exact (@first_command_wins asciiToLowerCase
           (lit "Run this" ++ Samples.newline ++ lit "git stash" ++ Samples.newline
            ++ lit "git stash pop")
           [lit "Run this"] [lit "git stash pop"] (lit "git stash")
           eq_refl Hbefore eq_refl).
Defined.

(** Two lines that mention a warning after a greeting. *)
Lemma first_mention_of_warning_wins_at_two :
  split 10 (lit "Hello" ++ Samples.newline ++ lit "One warning applies"
            ++ Samples.newline ++ lit "A second warning")
  = [lit "Hello"] ++ lit "One warning applies" :: [lit "A second warning"]
  /\ includes (asciiToLowerCase (trim (lit "One warning applies"))) (lit "warning") = true
  /\ AIEngine.warning
       (AIEngine.textFallback asciiToLowerCase
          (lit "Hello" ++ Samples.newline ++ lit "One warning applies"
           ++ Samples.newline ++ lit "A second warning"))
     = Some (trim (lit "One warning applies")).
Proof.
  split; [reflexivity|]. split; [reflexivity|].
  apply (@first_mention_of_warning_wins asciiToLowerCase
           (lit "Hello" ++ Samples.newline ++ lit "One warning applies"
            ++ Samples.newline ++ lit "A second warning")
           [lit "Hello"] [lit "A second warning"] (lit "One warning applies")).
  - reflexivity.
  - intros l [<- | []]. split; reflexivity.
  - reflexivity.
  - reflexivity.
  - discriminate.
  - intros l [<- | []]. reflexivity.
Defined.

(** The setting [deepseek]. *)
Lemma getModelChoice_resolves_at_deepseek :
  existsb (eqb (lit "deepseek")) AIEngine.inheritedKeys = false
  /\ exists modelChoice,
       Extension.getModelChoice (lit "deepseek") = Extension.Key modelChoice
       /\ AIEngine.resolveModel modelChoice
          = AIEngine.Model {| AIEngine.name := lit "DeepSeek R1 Distill Llama 70B";
                              AIEngine.provider := AIEngine.groq;
                              AIEngine.model := lit "deepseek-r1-distill-llama-70b" |}.
Proof.
  split; [reflexivity|].
  exact (getModelChoice_resolves (lit "deepseek") eq_refl).
Defined.

(** A directory that is not a repository. *)
Lemma analyzeContext_not_a_repo_at_plain_directory :
  Scenarios.notARepo (lit "git status")
  = inl (Samples.commandFailed (lit "git status"))
  /\ run Scenarios.notARepo (ContextAnalyzer.analyzeContext Samples.isoDate)
     = (inr (ContextAnalyzer.ContextError (lit "Not a Git repository")),
        [lit "git status"]).
Proof.
  split; [reflexivity|].
  exact (@analyzeContext_not_a_repo Samples.isoDate Scenarios.notARepo
           (Samples.commandFailed (lit "git status")) eq_refl).
Defined.

(** A clean repository without a remote: the query of the remote fails and
    the snapshot is returned all the same. *)
Lemma analyzeContext_survives_guarded_failures_at_no_remote :
  Samples.cleanRepo (lit "git remote show origin")
  = inl (Samples.commandFailed (lit "git remote show origin"))
  /\ Samples.cleanRepo (lit "git status") = inr []
  /\ Samples.cleanRepo (lit "git symbolic-ref -q HEAD")
     = inr (lit "refs/heads/main" ++ Samples.newline)
  /\ exists branch rs lastCommit,
       run Samples.cleanRepo (ContextAnalyzer.analyzeContext Samples.isoDate)
       = (inr (ContextAnalyzer.Analyzed
                 {| ContextAnalyzer.branch := branch;
                    ContextAnalyzer.is_dirty := ContextAnalyzer.nonEmpty [];
                    ContextAnalyzer.staged_files := ContextAnalyzer.countLines [];
                    ContextAnalyzer.unstaged_files := ContextAnalyzer.countLines [];
                    ContextAnalyzer.untracked_files := ContextAnalyzer.countLines [];
                    ContextAnalyzer.is_detached :=
                      ContextAnalyzer.nonEmpty (lit "refs/heads/main" ++ Samples.newline);
                    ContextAnalyzer.remote_status := rs;
                    ContextAnalyzer.last_commit := lastCommit;
                    ContextAnalyzer.stash_count := ContextAnalyzer.countLines [] |}),
          [ lit "git status"; lit "git rev-parse --abbrev-ref HEAD";
            lit "git status --porcelain"; lit "git diff --cached --name-only";
            lit "git diff --name-only"; lit "git ls-files --others --exclude-standard";
            lit "git symbolic-ref -q HEAD"; lit "git remote show origin";
            logCommand; lit "git stash list" ]).
Proof.
  split; [reflexivity|]. split; [reflexivity|]. split; [reflexivity|].
  exact (@analyzeContext_survives_guarded_failures Samples.isoDate Samples.cleanRepo
           [] [] [] [] [] (lit "refs/heads/main" ++ Samples.newline) []
           eq_refl eq_refl eq_refl eq_refl eq_refl eq_refl eq_refl).
Defined.

(** The snapshot of the clean repository. *)
Lemma analyzeContext_snapshot_invariants_at_clean_repo :
  fst (run Samples.cleanRepo (ContextAnalyzer.analyzeContext Samples.isoDate))
  = inr (ContextAnalyzer.Analyzed
           {| ContextAnalyzer.branch := lit "main";
              ContextAnalyzer.is_dirty := false;
              ContextAnalyzer.staged_files := 0;
              ContextAnalyzer.unstaged_files := 0;
              ContextAnalyzer.untracked_files := 0;
              ContextAnalyzer.is_detached := true;
              ContextAnalyzer.remote_status :=
                {| ContextAnalyzer.has_remote := false; ContextAnalyzer.ahead := None;
                   ContextAnalyzer.behind := None; ContextAnalyzer.up_to_date := None |};
              ContextAnalyzer.last_commit :=
                Some {| ContextAnalyzer.sha := lit "1a2b3c4";
                        ContextAnalyzer.message := lit "first commit";
                        ContextAnalyzer.author := lit "dev";
                        ContextAnalyzer.date := lit "2024-05-01T10:00:00.000Z" |};
              ContextAnalyzer.stash_count := 0 |})
  /\ lit "main" <> []
  /\ (0 <= 0)%Z.
Proof.
  split; [vm_compute; reflexivity|].
  pose proof (@analyzeContext_snapshot_invariants Samples.isoDate Samples.cleanRepo
                _ eq_refl) as H.
  split; [exact (proj1 H) | exact (proj1 (proj2 H))].
Defined.

(** The repository with a detached HEAD: the error names the query of the
    detached flag. *)
Lemma analyzeContext_error_cause_at_detached_head :
  fst (run Samples.detachedHead (ContextAnalyzer.analyzeContext Samples.isoDate))
  = inr (ContextAnalyzer.ContextError
           (lit "Failed to analyze context: Error: Command failed: git symbolic-ref -q HEAD"))
  /\ ((lit "Failed to analyze context: Error: Command failed: git symbolic-ref -q HEAD"
       = lit "Not a Git repository"
       /\ exists e, Samples.detachedHead (lit "git status") = inl e)
      \/ exists q e,
           In q unguardedQueries /\ Samples.detachedHead q = inl e
           /\ lit "Failed to analyze context: Error: Command failed: git symbolic-ref -q HEAD"
              = lit "Failed to analyze context: " ++ showError e).
Proof.
  split; [vm_compute; reflexivity|].
  refine (@analyzeContext_error_cause Samples.isoDate Samples.detachedHead _ _).
  vm_compute. reflexivity.
Defined.

(** The last commit of the clean repository. *)
Lemma getLastCommitInfo_fields_at_first_commit :
  Samples.cleanRepo logCommand
  = inr (lit "1a2b3c4 " ++ 124%N :: lit " first commit " ++ 124%N :: lit " dev "
         ++ 124%N :: lit " 2024-05-01 10:00:00 +0000")
  /\ Scenarios.isoOf (trim (lit " 2024-05-01 10:00:00 +0000"))
     = Some (lit "2024-05-01T10:00:00.000Z")
  /\ fst (run Samples.cleanRepo (ContextAnalyzer.getLastCommitInfo Scenarios.isoOf))
     = inr (Some {| ContextAnalyzer.sha := trim (lit "1a2b3c4 ");
                    ContextAnalyzer.message := trim (lit " first commit ");
                    ContextAnalyzer.author := trim (lit " dev ");
                    ContextAnalyzer.date := lit "2024-05-01T10:00:00.000Z" |}).
Proof.
  split; [reflexivity|]. split; [reflexivity|].
  exact (@getLastCommitInfo_fields Scenarios.isoOf Samples.cleanRepo
           (lit "1a2b3c4 ") (lit " first commit ") (lit " dev ")
           (lit " 2024-05-01 10:00:00 +0000") (lit "2024-05-01T10:00:00.000Z")
           eq_refl eq_refl eq_refl eq_refl eq_refl eq_refl).
Defined.

(** A last commit whose subject is [fix a|b parser]. *)
Lemma getLastCommitInfo_bar_in_subject_at_parser_fix :
  Scenarios.barInSubject logCommand
  = inr (lit "1a2b3c4 " ++ 124%N :: lit " fix a" ++ 124%N :: lit "b parser "
         ++ 124%N :: lit " dev " ++ 124%N :: lit " 2024-05-01 10:00:00 +0000")
  /\ Scenarios.isoOf (trim (lit " dev ")) = None
  /\ fst (run Scenarios.barInSubject (ContextAnalyzer.getLastCommitInfo Scenarios.isoOf))
     = inr None.
Proof.
  split; [reflexivity|]. split; [reflexivity|].
  exact (@getLastCommitInfo_bar_in_subject Scenarios.isoOf Scenarios.barInSubject
           (lit "1a2b3c4 ") (lit " fix a") (lit "b parser ") (lit " dev ")
           (lit " 2024-05-01 10:00:00 +0000")
           eq_refl eq_refl eq_refl eq_refl eq_refl eq_refl).
Defined.

(** A sentence that quotes a command. *)
Lemma quoted_command_is_extracted_at_log :
  split 10 (lit "You should run " ++ 96%N :: lit "git log --oneline" ++ 96%N :: lit "."
            ++ Samples.newline ++ lit "Warning: check branch first.")
  = [] ++ (lit "You should run " ++ 96%N :: lit "git log --oneline" ++ 96%N :: lit ".")
       :: [lit "Warning: check branch first."]
  /\ trim (lit "You should run " ++ 96%N :: lit "git log --oneline" ++ 96%N :: lit ".")
     = lit "You should run " ++ 96%N :: lit "git " ++ lit "log --oneline"
       ++ 96%N :: lit "."
  /\ trimEnd (lit "log --oneline") = lit "log --oneline"
  /\ AIEngine.command
       (AIEngine.textFallback asciiToLowerCase
          (lit "You should run " ++ 96%N :: lit "git log --oneline" ++ 96%N :: lit "."
           ++ Samples.newline ++ lit "Warning: check branch first."))
     = Some (lit "git log --oneline").
Proof.
  split; [reflexivity|]. split; [reflexivity|]. split; [reflexivity|].
  apply (@quoted_command_is_extracted asciiToLowerCase
           (lit "You should run " ++ 96%N :: lit "git log --oneline" ++ 96%N :: lit "."
            ++ Samples.newline ++ lit "Warning: check branch first.")
           [] [lit "Warning: check branch first."]
           (lit "You should run " ++ 96%N :: lit "git log --oneline" ++ 96%N :: lit ".")
           (lit "You should run ") (lit "log --oneline") (lit ".")).
  - reflexivity.
  - intros l [].
  - reflexivity.
  - reflexivity.
  - reflexivity.
  - discriminate.
  - reflexivity.
Defined.

(** The same sentence with a blank quotation: [git git]. *)
Lemma quoted_blank_command :
  AIEngine.command
    (AIEngine.textFallback asciiToLowerCase
       (lit "run " ++ 96%N :: lit "git   " ++ 96%N :: lit " now"))
  = Some (lit "git git").
Proof. reflexivity. Qed.

(** The model choice [toString], with both keys configured. *)
Lemma generateCommand_inherited_choice_at_toString :
  existsb (eqb (lit "toString")) AIEngine.inheritedKeys = true
  /\ AIEngine.generateCommand (Some (lit "key")) (Some (lit "key")) asciiToLowerCase
       Samples.rejectText Samples.promptOf Samples.replyText Samples.replyText
       (lit "undo the last commit") Samples.noContext (lit "toString")
     = Ret (AIEngine.Text
              {| AIEngine.command := None;
                 AIEngine.explanation :=
                   lit "Failed to generate command: Error: Unknown provider: undefined";
                 AIEngine.warning :=
                   Some (lit "Please try again or use manual Git commands") |}).
Proof.
  split; [reflexivity|].
  exact (@generateCommand_inherited_choice (Some (lit "key")) (Some (lit "key"))
           asciiToLowerCase Empty_set Samples.rejectText ContextAnalyzer.Context
           Samples.promptOf jsstring Samples.replyText Samples.replyText
           (lit "undo the last commit") Samples.noContext (lit "toString") eq_refl).
Defined.
